(** * Token broker for vehicle credentials: [server/index.js]

    A shallow embedding of the two route handlers of the service
    ([GET /exchange] and [POST /refresh-token]) together with the parts of
    their environment that decide what they answer: the relational database
    reached through the [pg] client, the provider SDK, and the clock.

    - The database is a finite map from relation names to tables.  A table
      is the list of its rows, so that the uniqueness of [vehicle_id] is a
      property to be established and not a consequence of the encoding.
      A statement against a relation that does not exist raises, as
      PostgreSQL does; other failures of the database (a lost connection,
      a stricter schema) are not modelled.
    - The handlers run in a small state-and-exception monad whose state is
      the database and the list of outgoing calls performed so far.
    - The provider SDK and the clock are an oracle record [Env]; every
      handler consults each of them at most once per request.
    - [console.log] output is not part of the state and is left out. *)

From stdpp Require Import gmap strings list fin_maps.
From Stdlib Require Import ZArith Ascii.

Open Scope Z_scope.
Open Scope string_scope.
Open Scope list_scope.

(** ** JavaScript values met by the handlers *)

(** A string-valued slot that may be [undefined]: query parameters, token
    fields of the SDK's answer, nullable text columns. *)
Abbreviation jsstring := (option string).

(** [!x] is false exactly for a defined, non-empty string.  [truthy x]
    returns the string when [!x] is false. *)
Definition truthy (x : jsstring) : option string :=
  match x with
  | Some s => if decide (s = "") then None else Some s
  | None => None
  end.

(** The value found under [vehicleId] in a parsed JSON body.  [JOther]
    stands for every remaining JSON value (number, array, object) and
    carries the text under which the [pg] driver sends it. *)
Inductive JsValue :=
| JUndefined
| JNull
| JBool (b : bool)
| JString (s : string)
| JOther (sent : string).

(** Parameter conversion of the [pg] driver: [undefined] and [null] are
    sent as SQL NULL, everything else as text. *)
Definition prepareValue (v : JsValue) : option string :=
  match v with
  | JUndefined | JNull => None
  | JBool true => Some "true"
  | JBool false => Some "false"
  | JString s => Some s
  | JOther sent => Some sent
  end.

(** ** Exceptions *)

Inductive Exn :=
| ProviderError (msg : string)
| UndefinedRelation (rel : string)
| TypeError (msg : string).

Definition dquote : string := String "034"%char EmptyString.

(** [error.message] *)
Definition message (e : Exn) : string :=
  match e with
  | ProviderError msg => msg
  | UndefinedRelation rel =>
      ("relation " ++ dquote ++ rel ++ dquote ++ " does not exist")%string
  | TypeError msg => msg
  end.

(** ** The database *)

Record Row := mkRow {
  vehicle_id : string;
  access_token : jsstring;
  refresh_token : jsstring;
  expires_at : Z
}.

Abbreviation Table := (list Row).
Abbreviation Database := (gmap string (list Row)).

Definition has_key (id : string) (r : Row) : bool :=
  bool_decide (vehicle_id r = id).

(** [SET access_token = .., refresh_token = .., expires_at = ..] *)
Definition set_tokens (at_ rt : jsstring) (exp : Z) (r : Row) : Row :=
  {| vehicle_id := vehicle_id r;
     access_token := at_;
     refresh_token := rt;
     expires_at := exp |}.

(** [INSERT INTO t (vehicle_id, access_token, refresh_token, expires_at)
     VALUES ($1, $2, $3, $4)
     ON CONFLICT (vehicle_id) DO UPDATE
     SET access_token = $2, refresh_token = $3, expires_at = $4] *)
Definition insert_on_conflict (id : string) (at_ rt : jsstring) (exp : Z)
    (t : Table) : Table :=
  if existsb (has_key id) t
  then map (fun r => if has_key id r then set_tokens at_ rt exp r else r) t
  else t ++ [mkRow id at_ rt exp].

(** [SELECT refresh_token FROM t WHERE vehicle_id = $1].  A NULL parameter
    compares equal to nothing. *)
Definition select_refresh_token (id : option string) (t : Table)
    : list jsstring :=
  match id with
  | None => []
  | Some k => map refresh_token (filter (fun r => vehicle_id r = k) t)
  end.

(** [UPDATE t SET access_token = $1, refresh_token = $2, expires_at = $3
     WHERE vehicle_id = $4] *)
Definition update_tokens (at_ rt : jsstring) (exp : Z) (id : option string)
    (t : Table) : Table :=
  match id with
  | None => t
  | Some k =>
      map (fun r => if has_key k r then set_tokens at_ rt exp r else r) t
  end.

(** ** Outgoing calls *)

Inductive Query :=
| QInsert (rel id : string) (at_ rt : jsstring) (exp : Z)
| QSelect (rel : string) (id : option string)
| QUpdate (rel : string) (at_ rt : jsstring) (exp : Z) (id : option string).

Inductive Call :=
| CallExchangeCode (code : string)
| CallGetVehicles (token : string)
| CallExchangeRefreshToken (token : jsstring)
| CallQuery (q : Query).

Definition is_query (c : Call) : bool :=
  match c with CallQuery _ => true | _ => false end.

Definition is_vehicle_listing (c : Call) : bool :=
  match c with CallGetVehicles _ => true | _ => false end.

(** ** The handler monad *)

Record World := mkWorld {
  store : Database;
  trace : list Call
}.

Definition M (A : Type) : Type := World -> (Exn + A) * World.

Definition ret {A} (a : A) : M A := fun w => (inr a, w).

Definition throw {A} (e : Exn) : M A := fun w => (inl e, w).

Definition bind {A B} (m : M A) (k : A -> M B) : M B :=
  fun w =>
    match m w with
    | (inl e, w') => (inl e, w')
    | (inr a, w') => k a w'
    end.

(** [try { m } catch (error) { h error }] *)
Definition try_catch {A} (m : M A) (h : Exn -> M A) : M A :=
  fun w =>
    match m w with
    | (inl e, w') => h e w'
    | (inr a, w') => (inr a, w')
    end.

Notation "x <- m ;; k" := (bind m (fun x => k))
  (at level 100, m at next level, right associativity).

Definition record_call (c : Call) : M unit :=
  fun w => (inr tt, {| store := store w; trace := trace w ++ [c] |}).

(** [await] of an SDK promise: the call is recorded, a rejection is
    rethrown. *)
Definition await {A} (c : Call) (answer : Exn + A) : M A :=
  _ <- record_call c ;;
  match answer with
  | inl e => throw e
  | inr a => ret a
  end.

(** [await db.query(..)] on relation [rel]: [f] computes the rows handed
    back and the new contents of the relation. *)
Definition db_query {A} (q : Query) (rel : string)
    (f : Table -> A * Table) : M A :=
  _ <- record_call (CallQuery q) ;;
  fun w =>
    match store w !! rel with
    | None => (inl (UndefinedRelation rel), w)
    | Some t =>
        let '(a, t') := f t in
        (inr a, {| store := <[rel := t']> (store w); trace := trace w |})
    end.

Definition query_insert (rel id : string) (at_ rt : jsstring) (exp : Z)
    : M (list Row) :=
  db_query (QInsert rel id at_ rt exp) rel
    (fun t =>
       let t' := insert_on_conflict id at_ rt exp t in
       (filter (fun r => vehicle_id r = id) t', t')).

Definition query_select (rel : string) (id : option string)
    : M (list jsstring) :=
  db_query (QSelect rel id) rel
    (fun t => (select_refresh_token id t, t)).

Definition query_update (rel : string) (at_ rt : jsstring) (exp : Z)
    (id : option string) : M unit :=
  db_query (QUpdate rel at_ rt exp id) rel
    (fun t => (tt, update_tokens at_ rt exp id t)).

(** ** The provider SDK and the clock *)

Record Access := mkAccess {
  accessToken : jsstring;
  refreshToken : jsstring;
  expiration : option Z
}.

Record VehicleResponse := mkVehicleResponse {
  vehicles : option (list string)
}.

Record Env := mkEnv {
  exchangeCode : string -> Exn + Access;
  getVehicles : string -> Exn + VehicleResponse;
  exchangeRefreshToken : jsstring -> Exn + Access;
  date_now : Z
}.

(** ** Responses *)

Record Response := mkResponse {
  status : Z;
  body : list (string * string)
}.

(** [JSON.stringify] of a flat object: a key whose value is [undefined]
    is left out. *)
Fixpoint json (fields : list (string * jsstring)) : list (string * string) :=
  match fields with
  | [] => []
  | (k, Some v) :: rest => (k, v) :: json rest
  | (_, None) :: rest => json rest
  end.

(** [res.status(code).json(obj)]; [res.json(obj)] answers 200. *)
Definition respond (code : Z) (fields : list (string * jsstring)) : Response :=
  {| status := code; body := json fields |}.

Definition two_hours : Z := 7200000.

(** ** [app.get('/exchange', ..)] *)

(** [query_code] is [req.query.code]: [None] when the parameter is not in
    the query string, [Some ""] for [?code=].  Array and object values
    (a repeated or bracketed parameter) are not modelled. *)
Record ExchangeRequest := mkExchangeRequest {
  query_code : jsstring
}.

Definition exchange_try (env : Env) (req : ExchangeRequest) : M Response :=
  match truthy (query_code req) with
  | None => ret (respond 400 [("error", Some "Missing authorization code")])
  | Some code =>
      access <- await (CallExchangeCode code) (exchangeCode env code) ;;
      match truthy (accessToken access) with
      | None =>
          ret (respond 401
                 [("error", Some "Session expired. Please log in again.")])
      | Some token =>
          vehicleResponse <-
            await (CallGetVehicles token) (getVehicles env token) ;;
          match vehicles vehicleResponse with
          | None | Some [] =>
              ret (respond 400 [("error", Some "No vehicles found.")])
          | Some (vehicleId :: _) =>
              _ <- query_insert "vehicles" vehicleId
                     (Some token) (refreshToken access)
                     (date_now env + two_hours) ;;
              ret (respond 200
                     [("message", Some "Successfully connected vehicle");
                      ("vehicleId", Some vehicleId);
                      ("accessToken", Some token)])
          end
      end
  end.

Definition exchange_handler (env : Env) (req : ExchangeRequest) : M Response :=
  try_catch (exchange_try env req)
    (fun error =>
       ret (respond 500
              [("error", Some "Failed to exchange token or store data");
               ("details", Some (message error))])).

(** ** [app.post('/refresh-token', ..)] *)

(** [req_body] is [None] when [req.body] is [undefined]; otherwise it is
    the value the body has under [vehicleId], the only property read. *)
Record RefreshRequest := mkRefreshRequest {
  req_body : option JsValue
}.

Definition refresh_try (env : Env) (req : RefreshRequest) : M Response :=
  match req_body req with
  | None =>
      throw (TypeError
        "Cannot destructure property 'vehicleId' of 'req.body' as it is undefined.")
  | Some vehicleId =>
      tokenResult <- query_select "vehicle" (prepareValue vehicleId) ;;
      match tokenResult with
      | [] => ret (respond 404 [("error", Some "Vehicle not found")])
      | stored :: _ =>
          access <- await (CallExchangeRefreshToken stored)
                      (exchangeRefreshToken env stored) ;;
          _ <- query_update "vehicles"
                 (accessToken access) (refreshToken access)
                 (date_now env + two_hours) (prepareValue vehicleId) ;;
          ret (respond 200
                 [("message", Some "Token refreshed successfully");
                  ("accessToken", accessToken access)])
      end
  end.

Definition refresh_handler (env : Env) (req : RefreshRequest) : M Response :=
  try_catch (refresh_try env req)
    (fun error =>
       ret (respond 500
              [("error", Some "Failed to refresh token");
               ("details", Some (message error))])).

(** ** Error-handling middleware and the route as a function *)

(** [app.use((err, req, res, next) => ..)] *)
Definition errorMiddleware (err : Exn) : Response :=
  respond 500 [("error", Some "Something went wrong!");
               ("details", Some (message err))].

(** What one request leaves behind: the answer, the database, and the
    outgoing calls in the order they were made. *)
Record Outcome := mkOutcome {
  response : Response;
  final : Database;
  calls : list Call
}.

Definition run_handler (h : M Response) (d : Database) : Outcome :=
  match h {| store := d; trace := [] |} with
  | (inr r, w) => mkOutcome r (store w) (trace w)
  | (inl err, w) => mkOutcome (errorMiddleware err) (store w) (trace w)
  end.

Definition exchange (env : Env) (d : Database) (req : ExchangeRequest)
    : Outcome :=
  run_handler (exchange_handler env req) d.

Definition refresh (env : Env) (d : Database) (req : RefreshRequest)
    : Outcome :=
  run_handler (refresh_handler env req) d.

(** ** Reading a response body and a table *)

(** The value of field [k] of a JSON object. *)
Fixpoint field (k : string) (b : list (string * string)) : option string :=
  match b with
  | [] => None
  | (k', v) :: rest => if decide (k' = k) then Some v else field k rest
  end.

(** The rows stored for one vehicle. *)
Definition rows_of (id : string) (t : Table) : Table :=
  filter (fun r => vehicle_id r = id) t.

(** The unique constraint on [vehicle_id]. *)
Definition unique_key (t : Table) : Prop := NoDup (vehicle_id <$> t).

(** States the service can be in: the relations start empty, and every
    further state is what one of the two routes leaves behind. *)
Inductive reachable : Database -> Prop :=
| reach_init (d : Database) :
    (forall rel t, d !! rel = Some t -> t = []) -> reachable d
| reach_exchange (d : Database) (env : Env) (req : ExchangeRequest) :
    reachable d -> reachable (final (exchange env d req))
| reach_refresh (d : Database) (env : Env) (req : RefreshRequest) :
    reachable d -> reachable (final (refresh env d req)).

(** Every relation obeys the unique constraint. *)
Definition consistent (d : Database) : Prop :=
  map_Forall (fun _ t => unique_key t) d.

(** The answer and the effects of [GET /exchange] on its successful path. *)
Definition exchange_done (env : Env) (d : Database) (code token : string)
    (access : Access) (vehicleId : string) (t : Table) : Outcome :=
  let expiry := date_now env + two_hours in
  {| response :=
       {| status := 200;
          body := [("message", "Successfully connected vehicle");
                   ("vehicleId", vehicleId);
                   ("accessToken", token)] |};
     final :=
       <["vehicles" :=
           insert_on_conflict vehicleId (Some token) (refreshToken access)
             expiry t]> d;
     calls :=
       [CallExchangeCode code; CallGetVehicles token;
        CallQuery (QInsert "vehicles" vehicleId (Some token)
                     (refreshToken access) expiry)] |}.

(** The answer and the effects of [POST /refresh-token] on its successful
    path: [tv] is the relation the lookup read, [t] the one it updates. *)
Definition refresh_done (env : Env) (d : Database) (v : JsValue)
    (stored : jsstring) (access : Access) (t : Table) : Outcome :=
  let expiry := date_now env + two_hours in
  {| response :=
       respond 200 [("message", Some "Token refreshed successfully");
                    ("accessToken", accessToken access)];
     final :=
       <["vehicles" :=
           update_tokens (accessToken access) (refreshToken access) expiry
             (prepareValue v) t]> d;
     calls :=
       [CallQuery (QSelect "vehicle" (prepareValue v));
        CallExchangeRefreshToken stored;
        CallQuery (QUpdate "vehicles" (accessToken access)
                     (refreshToken access) expiry (prepareValue v))] |}.

(** ** Concrete deployments and providers used in the examples below *)

Module Scenario.
(** The schema the exchange path writes to, freshly created. *)
Definition fresh : Database := {["vehicles" := []]}.

(** The same with a second, empty relation under the singular name. *)
Definition fresh_both : Database := <["vehicle" := []]> fresh.

(** One vehicle already connected. *)
Definition connected : Database :=
  {["vehicles" := [mkRow "veh_123" (Some "AT1") (Some "RT1") 7201000]]}.

(** A provider that grants [AT1]/[RT1] for one vehicle and rotates to
    [AT2]/[RT2] on refresh; the clock reads 1000 ms. *)
Definition provider : Env :=
  {| exchangeCode := fun _ => inr (mkAccess (Some "AT1") (Some "RT1") (Some 5000));
     getVehicles := fun _ => inr (mkVehicleResponse (Some ["veh_123"; "veh_456"]));
     exchangeRefreshToken := fun _ => inr (mkAccess (Some "AT2") (Some "RT2") None);
     date_now := 1000 |}.

(** A later exchange for the same vehicle. *)
Definition provider_later : Env :=
  {| exchangeCode := fun _ => inr (mkAccess (Some "AT9") (Some "RT9") None);
     getVehicles := fun _ => inr (mkVehicleResponse (Some ["veh_123"]));
     exchangeRefreshToken := fun _ => inl (ProviderError "invalid_grant");
     date_now := 5000 |}.

(** A provider whose code exchange carries no access token. *)
Definition provider_expired : Env :=
  {| exchangeCode := fun _ => inr (mkAccess None (Some "RT1") None);
     getVehicles := fun _ => inr (mkVehicleResponse (Some ["veh_123"]));
     exchangeRefreshToken := fun _ => inl (ProviderError "invalid_grant");
     date_now := 1000 |}.

(** A provider account without vehicles. *)
Definition provider_no_vehicles : Env :=
  {| exchangeCode := fun _ => inr (mkAccess (Some "AT1") (Some "RT1") None);
     getVehicles := fun _ => inr (mkVehicleResponse (Some []));
     exchangeRefreshToken := fun _ => inl (ProviderError "invalid_grant");
     date_now := 1000 |}.

Definition callback : ExchangeRequest := {| query_code := Some "VALIDCODE" |}.

Definition refresh_of (id : string) : RefreshRequest :=
  {| req_body := Some (JString id) |}.
End Scenario.

(** ** The paths through the handlers *)

(** The answer of the [catch] block of [/exchange]. *)
Definition exchange_failure (error : Exn) : Response :=
  respond 500 [("error", Some "Failed to exchange token or store data");
               ("details", Some (message error))].

(** The answer of the [catch] block of [/refresh-token]. *)
Definition refresh_failure (error : Exn) : Response :=
  respond 500 [("error", Some "Failed to refresh token");
               ("details", Some (message error))].

(** One constructor per way through [app.get('/exchange', ..)], in the
    order of the source: each [return] and each place that can raise. *)
Inductive exchange_path (env : Env) (d : Database) (req : ExchangeRequest)
    : Outcome -> Prop :=
| ex_missing_code :
    truthy (query_code req) = None ->
    exchange_path env d req
      {| response := respond 400 [("error", Some "Missing authorization code")];
         final := d;
         calls := [] |}
| ex_code_rejected (code : string) (e : Exn) :
    truthy (query_code req) = Some code ->
    exchangeCode env code = inl e ->
    exchange_path env d req
      {| response := exchange_failure e;
         final := d;
         calls := [CallExchangeCode code] |}
| ex_no_token (code : string) (access : Access) :
    truthy (query_code req) = Some code ->
    exchangeCode env code = inr access ->
    truthy (accessToken access) = None ->
    exchange_path env d req
      {| response :=
           respond 401 [("error", Some "Session expired. Please log in again.")];
         final := d;
         calls := [CallExchangeCode code] |}
| ex_listing_rejected (code token : string) (access : Access) (e : Exn) :
    truthy (query_code req) = Some code ->
    exchangeCode env code = inr access ->
    truthy (accessToken access) = Some token ->
    getVehicles env token = inl e ->
    exchange_path env d req
      {| response := exchange_failure e;
         final := d;
         calls := [CallExchangeCode code; CallGetVehicles token] |}
| ex_no_vehicles (code token : string) (access : Access)
    (vr : VehicleResponse) :
    truthy (query_code req) = Some code ->
    exchangeCode env code = inr access ->
    truthy (accessToken access) = Some token ->
    getVehicles env token = inr vr ->
    vehicles vr = None \/ vehicles vr = Some [] ->
    exchange_path env d req
      {| response := respond 400 [("error", Some "No vehicles found.")];
         final := d;
         calls := [CallExchangeCode code; CallGetVehicles token] |}
| ex_store_failed (code token : string) (access : Access)
    (vr : VehicleResponse) (vehicleId : string) (others : list string) :
    truthy (query_code req) = Some code ->
    exchangeCode env code = inr access ->
    truthy (accessToken access) = Some token ->
    getVehicles env token = inr vr ->
    vehicles vr = Some (vehicleId :: others) ->
    d !! "vehicles" = None ->
    exchange_path env d req
      {| response := exchange_failure (UndefinedRelation "vehicles");
         final := d;
         calls := calls (exchange_done env d code token access vehicleId []) |}
| ex_stored (code token : string) (access : Access)
    (vr : VehicleResponse) (vehicleId : string) (others : list string)
    (t : Table) :
    truthy (query_code req) = Some code ->
    exchangeCode env code = inr access ->
    truthy (accessToken access) = Some token ->
    getVehicles env token = inr vr ->
    vehicles vr = Some (vehicleId :: others) ->
    d !! "vehicles" = Some t ->
    exchange_path env d req
      (exchange_done env d code token access vehicleId t).

(** The same for [app.post('/refresh-token', ..)]. *)
Inductive refresh_path (env : Env) (d : Database) (req : RefreshRequest)
    : Outcome -> Prop :=
| rf_no_body (msg : string) :
    req_body req = None ->
    refresh_path env d req
      {| response := refresh_failure (TypeError msg);
         final := d;
         calls := [] |}
| rf_lookup_failed (v : JsValue) :
    req_body req = Some v ->
    d !! "vehicle" = None ->
    refresh_path env d req
      {| response := refresh_failure (UndefinedRelation "vehicle");
         final := d;
         calls := [CallQuery (QSelect "vehicle" (prepareValue v))] |}
| rf_not_found (v : JsValue) (tv : Table) :
    req_body req = Some v ->
    d !! "vehicle" = Some tv ->
    select_refresh_token (prepareValue v) tv = [] ->
    refresh_path env d req
      {| response := respond 404 [("error", Some "Vehicle not found")];
         final := d;
         calls := [CallQuery (QSelect "vehicle" (prepareValue v))] |}
| rf_provider_rejected (v : JsValue) (tv : Table) (stored : jsstring)
    (more : list jsstring) (e : Exn) :
    req_body req = Some v ->
    d !! "vehicle" = Some tv ->
    select_refresh_token (prepareValue v) tv = stored :: more ->
    exchangeRefreshToken env stored = inl e ->
    refresh_path env d req
      {| response := refresh_failure e;
         final := d;
         calls := [CallQuery (QSelect "vehicle" (prepareValue v));
                   CallExchangeRefreshToken stored] |}
| rf_update_failed (v : JsValue) (tv : Table) (stored : jsstring)
    (more : list jsstring) (access : Access) :
    req_body req = Some v ->
    d !! "vehicle" = Some tv ->
    select_refresh_token (prepareValue v) tv = stored :: more ->
    exchangeRefreshToken env stored = inr access ->
    d !! "vehicles" = None ->
    refresh_path env d req
      {| response := refresh_failure (UndefinedRelation "vehicles");
         final := d;
         calls := calls (refresh_done env d v stored access []) |}
| rf_updated (v : JsValue) (tv : Table) (stored : jsstring)
    (more : list jsstring) (access : Access) (t : Table) :
    req_body req = Some v ->
    d !! "vehicle" = Some tv ->
    select_refresh_token (prepareValue v) tv = stored :: more ->
    exchangeRefreshToken env stored = inr access ->
    d !! "vehicles" = Some t ->
    refresh_path env d req (refresh_done env d v stored access t).

(** A row whose access token is a non-empty string. *)
Definition has_token (r : Row) : Prop := is_Some (truthy (access_token r)).

(** ** The service over several requests *)

(** A request as the router sees it, together with what the provider and
    the clock will answer while it is handled.  Requests are handled one
    after the other; overlapping requests are not modelled. *)
Inductive Request :=
| GetExchange (env : Env) (req : ExchangeRequest)
| PostRefreshToken (env : Env) (req : RefreshRequest).

(** [app.get('/exchange', ..)] and [app.post('/refresh-token', ..)] *)
Definition handle (r : Request) (d : Database) : Outcome :=
  match r with
  | GetExchange env req => exchange env d req
  | PostRefreshToken env req => refresh env d req
  end.

Fixpoint serve (rs : list Request) (d : Database) : list Response * Database :=
  match rs with
  | [] => ([], d)
  | r :: rest =>
      let o := handle r d in
      let '(answers, d') := serve rest (final o) in
      (response o :: answers, d')
  end.

Definition is_exchange (r : Request) : bool :=
  match r with GetExchange _ _ => true | PostRefreshToken _ _ => false end.

(** ** Process lifecycle: [process.on('SIGINT', ..)] *)

Inductive Effect :=
| ConsoleLog (line : string)
| ConsoleError (err : Exn)
| ProcessExit (code : Z).

(** A settled promise and the effects its callbacks have had so far. *)
Definition Promise (A : Type) : Type := (Exn + A) * list Effect.

(** [p.then(f)]: [f] runs on fulfilment only. *)
Definition promise_then {A B} (p : Promise A) (f : A -> Promise B)
    : Promise B :=
  match p with
  | (inr a, done) => let '(r, more) := f a in (r, done ++ more)
  | (inl e, done) => (inl e, done)
  end.

(** [p.catch(f)]: [f] runs on rejection only. *)
Definition promise_catch {A} (p : Promise A) (f : Exn -> Promise A)
    : Promise A :=
  match p with
  | (inr a, done) => (inr a, done)
  | (inl e, done) => let '(r, more) := f e in (r, done ++ more)
  end.

(** [p.finally(f)]: [f] runs either way and the settlement is kept. *)
Definition promise_finally {A} (p : Promise A) (f : unit -> list Effect)
    : Promise A :=
  let '(r, done) := p in (r, done ++ f tt).

(** The SIGINT listener; [ended] is how [db.end()] settles. *)
Definition on_sigint (ended : Exn + unit) : list Effect :=
  snd (promise_finally
         (promise_catch
            (promise_then (ended, [])
               (fun _ => (inr tt, [ConsoleLog "Database connection closed"])))
            (fun err => (inr tt, [ConsoleError err])))
         (fun _ => [ProcessExit 0])).

(** ** Further deployments and providers *)

Module Cases.
(** Both relation names deployed, the vehicle present under each. *)
Definition mirrored : Database :=
  <["vehicle" := [mkRow "veh_123" (Some "AT0") (Some "RT0") 500]]>
    Scenario.connected.

(** A provider that rejects the authorization code. *)
Definition provider_rejects : Env :=
  {| exchangeCode := fun _ => inl (ProviderError "invalid_grant");
     getVehicles := fun _ => inr (mkVehicleResponse (Some ["veh_123"]));
     exchangeRefreshToken := fun _ => inl (ProviderError "invalid_grant");
     date_now := 1000 |}.

(** A provider whose vehicle listing fails. *)
Definition provider_listing_fails : Env :=
  {| exchangeCode := fun _ => inr (mkAccess (Some "AT1") (Some "RT1") None);
     getVehicles := fun _ => inl (ProviderError "upstream timeout");
     exchangeRefreshToken := fun _ => inl (ProviderError "invalid_grant");
     date_now := 1000 |}.

(** A provider whose refresh answer carries no tokens. *)
Definition provider_blank_refresh : Env :=
  {| exchangeCode := fun _ => inr (mkAccess (Some "AT1") (Some "RT1") None);
     getVehicles := fun _ => inr (mkVehicleResponse (Some ["veh_123"]));
     exchangeRefreshToken := fun _ => inr (mkAccess None None None);
     date_now := 9000 |}.
End Cases.

(** * Properties *)

(** ** The SQL statements on one table *)

Section Statements.
Variables (id : string) (at_ rt : jsstring) (exp : Z).

Lemma existsb_has_key (t : Table) :
  existsb (has_key id) t = true <-> id ∈ vehicle_id <$> t.
Proof.
  rewrite existsb_exists, list_elem_of_fmap. split.
  - intros (r & Hin & Hk). exists r. split.
    + symmetry. by apply bool_decide_eq_true in Hk.
    + by apply list_elem_of_In.
  - intros (r & -> & Hin). exists r. split.
    + by apply list_elem_of_In.
    + by apply bool_decide_eq_true.
Qed.

Lemma keys_set_tokens (k : string) (t : Table) :
  vehicle_id <$> map (fun r => if has_key k r then set_tokens at_ rt exp r else r) t
  = vehicle_id <$> t.
Proof.
  induction t as [|r t IH]; [done|].
  cbn. f_equal; [|exact IH]. by destruct (has_key k r).
Qed.

Lemma keys_insert_on_conflict (t : Table) :
  vehicle_id <$> insert_on_conflict id at_ rt exp t
  = if existsb (has_key id) t then vehicle_id <$> t
    else (vehicle_id <$> t) ++ [id].
Proof.
  unfold insert_on_conflict. destruct (existsb (has_key id) t).
  - apply keys_set_tokens.
  - by rewrite fmap_app.
Qed.

Lemma insert_on_conflict_unique (t : Table) :
  unique_key t -> unique_key (insert_on_conflict id at_ rt exp t).
Proof.
  unfold unique_key. rewrite keys_insert_on_conflict.
  destruct (existsb (has_key id) t) eqn:E; [done|].
  intros Hnd. apply NoDup_app. split_and!; [done| |apply NoDup_singleton].
  intros k Hk Hk'. apply list_elem_of_singleton in Hk'. subst k.
  apply existsb_has_key in Hk. congruence.
Qed.

Lemma update_tokens_unique (k : option string) (t : Table) :
  unique_key t -> unique_key (update_tokens at_ rt exp k t).
Proof.
  unfold unique_key, update_tokens. destruct k; [|done].
  by rewrite keys_set_tokens.
Qed.

(** After the upsert some row carries the key. *)
Lemma insert_on_conflict_stored (t : Table) :
  exists r, r ∈ insert_on_conflict id at_ rt exp t /\ vehicle_id r = id.
Proof.
  assert (id ∈ vehicle_id <$> insert_on_conflict id at_ rt exp t) as Hin.
  { rewrite keys_insert_on_conflict.
    destruct (existsb (has_key id) t) eqn:E.
    - by apply existsb_has_key.
    - apply elem_of_app. right. by apply list_elem_of_singleton. }
  apply list_elem_of_fmap in Hin as (r & Hk & Hr). eauto.
Qed.

(** After the upsert every row with the key carries the new values. *)
Lemma insert_on_conflict_values (t : Table) (r : Row) :
  r ∈ insert_on_conflict id at_ rt exp t -> vehicle_id r = id ->
  r = mkRow id at_ rt exp.
Proof.
  unfold insert_on_conflict. destruct (existsb (has_key id) t) eqn:E.
  - intros Hin Hk. apply list_elem_of_fmap in Hin as (r0 & -> & _).
    unfold has_key in *. case_bool_decide as Hk0.
    + unfold set_tokens. by rewrite Hk0.
    + done.
  - intros Hin Hk. apply elem_of_app in Hin as [Hin|Hin].
    + assert (existsb (has_key id) t = true); [|congruence].
      apply existsb_has_key, list_elem_of_fmap. eauto.
    + by apply list_elem_of_singleton in Hin.
Qed.

(** Rows of other vehicles are left as they were. *)
Lemma insert_on_conflict_others (t : Table) (k : string) :
  k <> id -> rows_of k (insert_on_conflict id at_ rt exp t) = rows_of k t.
Proof.
  intros Hne. unfold insert_on_conflict, rows_of.
  destruct (existsb (has_key id) t).
  - induction t as [|r t IH]; [done|]. cbn [map].
    rewrite !filter_cons, IH. unfold has_key.
    case_bool_decide as Hk; [|done].
    cbn [set_tokens vehicle_id]. rewrite Hk.
    by rewrite !decide_False by done.
  - rewrite filter_app, filter_cons, filter_nil. cbn [vehicle_id].
    rewrite decide_False by done. by rewrite app_nil_r.
Qed.

Lemma rows_of_unique (t : Table) (k : string) :
  unique_key t -> (length (rows_of k t) <= 1)%nat.
Proof.
  unfold unique_key, rows_of. induction t as [|r t IH]; [cbn; lia|].
  rewrite fmap_cons, NoDup_cons, filter_cons. intros [Hnin Hnd].
  case_decide as Hk; [|auto].
  destruct (filter (fun r0 => vehicle_id r0 = k) t) as [|r0 l] eqn:E;
    [cbn; lia|].
  exfalso. apply Hnin.
  assert (r0 ∈ filter (fun r0 => vehicle_id r0 = k) t) as Hin
    by (rewrite E; left).
  apply list_elem_of_filter in Hin as [Hk0 Hin].
  rewrite Hk, <- Hk0. by apply list_elem_of_fmap_2.
Qed.
End Statements.

(** ** Running the handlers *)

Ltac unfold_handlers :=
  unfold exchange, refresh, run_handler, exchange_handler, refresh_handler,
    try_catch, exchange_try, refresh_try, query_insert, query_select,
    query_update, db_query, await, bind, record_call, ret, throw;
  cbn [store trace response final calls fst snd app].

Lemma truthy_Some (x : jsstring) (s : string) :
  truthy x = Some s <-> x = Some s /\ s <> "".
Proof.
  unfold truthy. destruct x as [s'|].
  - destruct (decide (s' = "")) as [->|Hne]; split.
    + discriminate.
    + by intros [[= <-] Hs].
    + by intros [= <-].
    + by intros [[= <-] _].
  - split; [discriminate | by intros [[=] _]].
Qed.

Lemma truthy_None (x : jsstring) :
  truthy x = None <-> x = None \/ x = Some "".
Proof.
  unfold truthy. destruct x as [s'|].
  - destruct (decide (s' = "")) as [->|Hne]; split.
    + auto.
    + done.
    + discriminate.
    + by intros [[=]|[= ->]].
  - split; auto.
Qed.

Lemma exchange_success (env : Env) (d : Database) (req : ExchangeRequest)
    (code token : string) (access : Access) (vr : VehicleResponse)
    (vehicleId : string) (others : list string) (t : Table) :
  truthy (query_code req) = Some code ->
  exchangeCode env code = inr access ->
  truthy (accessToken access) = Some token ->
  getVehicles env token = inr vr ->
  vehicles vr = Some (vehicleId :: others) ->
  d !! "vehicles" = Some t ->
  exchange env d req = exchange_done env d code token access vehicleId t.
Proof.
  intros Hcode Hacc Htok Hveh Hlist Hrel. unfold_handlers.
  rewrite Hcode, Hacc. cbn. rewrite Htok, Hveh. cbn. rewrite Hlist. cbn.
  by rewrite Hrel.
Qed.

(** Every way [GET /exchange] can end, by the status it answers. *)
Lemma exchange_inv (env : Env) (d : Database) (req : ExchangeRequest) :
  (exists code token access vr vehicleId others t,
      truthy (query_code req) = Some code /\
      exchangeCode env code = inr access /\
      truthy (accessToken access) = Some token /\
      getVehicles env token = inr vr /\
      vehicles vr = Some (vehicleId :: others) /\
      d !! "vehicles" = Some t /\
      exchange env d req = exchange_done env d code token access vehicleId t)
  \/ (status (response (exchange env d req)) <> 200 /\
      field "vehicleId" (body (response (exchange env d req))) = None /\
      final (exchange env d req) = d).
Proof.
  destruct (truthy (query_code req)) as [code|] eqn:Hcode; cycle 1.
  { right. unfold_handlers. by rewrite Hcode. }
  destruct (exchangeCode env code) as [e|access] eqn:Hacc.
  { right. unfold_handlers. by rewrite Hcode, Hacc. }
  destruct (truthy (accessToken access)) as [token|] eqn:Htok; cycle 1.
  { right. unfold_handlers. rewrite Hcode, Hacc. cbn. by rewrite Htok. }
  destruct (getVehicles env token) as [e|vr] eqn:Hveh.
  { right. unfold_handlers. rewrite Hcode, Hacc. cbn. by rewrite Htok, Hveh. }
  destruct (vehicles vr) as [[|vehicleId others]|] eqn:Hlist.
  - right. unfold_handlers. rewrite Hcode, Hacc. cbn. rewrite Htok, Hveh. cbn.
    by rewrite Hlist.
  - destruct (d !! "vehicles") as [t|] eqn:Hrel.
    + left. exists code, token, access, vr, vehicleId, others, t.
      split_and!; try done. by eapply exchange_success.
    + right. unfold_handlers. rewrite Hcode, Hacc. cbn. rewrite Htok, Hveh.
      cbn. rewrite Hlist. cbn. by rewrite Hrel.
  - right. unfold_handlers. rewrite Hcode, Hacc. cbn. rewrite Htok, Hveh. cbn.
    by rewrite Hlist.
Qed.

(** Every way [POST /refresh-token] can end. *)
Lemma refresh_inv (env : Env) (d : Database) (req : RefreshRequest) :
  (exists v tv stored more access t,
      req_body req = Some v /\
      d !! "vehicle" = Some tv /\
      select_refresh_token (prepareValue v) tv = stored :: more /\
      exchangeRefreshToken env stored = inr access /\
      d !! "vehicles" = Some t /\
      refresh env d req = refresh_done env d v stored access t)
  \/ (exists v tv,
      req_body req = Some v /\
      d !! "vehicle" = Some tv /\
      select_refresh_token (prepareValue v) tv = [] /\
      refresh env d req =
        {| response := respond 404 [("error", Some "Vehicle not found")];
           final := d;
           calls := [CallQuery (QSelect "vehicle" (prepareValue v))] |})
  \/ (status (response (refresh env d req)) = 500 /\
      final (refresh env d req) = d /\
      (req_body req = None \/
       d !! "vehicle" = None \/
       (exists v tv stored more,
           req_body req = Some v /\ d !! "vehicle" = Some tv /\
           select_refresh_token (prepareValue v) tv = stored :: more /\
           (d !! "vehicles" = None \/
            exists e, exchangeRefreshToken env stored = inl e)))).
Proof.
  destruct (req_body req) as [v|] eqn:Hbody; cycle 1.
  { right; right. unfold_handlers. rewrite Hbody. auto. }
  destruct (d !! "vehicle") as [tv|] eqn:Hlook; cycle 1.
  { right; right. unfold_handlers. rewrite Hbody. cbn. rewrite Hlook. auto. }
  pose proof (insert_id d "vehicle" tv Hlook) as Hsame.
  destruct (select_refresh_token (prepareValue v) tv) as [|stored more] eqn:Hsel.
  { right; left. exists v, tv. split_and!; try done.
    unfold_handlers. rewrite Hbody. cbn. rewrite Hlook, Hsel. cbn.
    by rewrite Hsame. }
  destruct (exchangeRefreshToken env stored) as [e|access] eqn:Hprov.
  { right; right. unfold_handlers. rewrite Hbody. cbn. rewrite Hlook, Hsel.
    cbn. rewrite Hprov. cbn. rewrite Hsame. split_and!; try done.
    right; right. exists v, tv, stored, more. eauto 10. }
  destruct (d !! "vehicles") as [t|] eqn:Hrel.
  - left. exists v, tv, stored, more, access, t. split_and!; try done.
    unfold_handlers. rewrite Hbody. cbn. rewrite Hlook, Hsel. cbn.
    rewrite Hprov. cbn. rewrite Hsame, Hrel. done.
  - right; right. unfold_handlers. rewrite Hbody. cbn. rewrite Hlook, Hsel.
    cbn. rewrite Hprov. cbn. rewrite Hsame, Hrel. split_and!; try done.
    right; right. exists v, tv, stored, more. eauto 10.
Qed.

(** ** The unique constraint is an invariant *)

Lemma exchange_consistent (env : Env) (d : Database) (req : ExchangeRequest) :
  consistent d -> consistent (final (exchange env d req)).
Proof.
  intros Hd.
  destruct (exchange_inv env d req)
    as [(code & token & access & vr & v & others & t & _ & _ & _ & _ & _
         & Hrel & ->)|(_ & _ & ->)]; [|done].
  cbn [final exchange_done]. apply map_Forall_insert_2; [|done].
  apply insert_on_conflict_unique. exact (Hd _ _ Hrel).
Qed.

Lemma refresh_consistent (env : Env) (d : Database) (req : RefreshRequest) :
  consistent d -> consistent (final (refresh env d req)).
Proof.
  intros Hd.
  destruct (refresh_inv env d req)
    as [(v & tv & stored & more & access & t & _ & _ & _ & _ & Hrel & ->)
       |[(v & tv & _ & _ & _ & ->)|(_ & -> & _)]]; [|done..].
  cbn [final refresh_done]. apply map_Forall_insert_2; [|done].
  apply update_tokens_unique. exact (Hd _ _ Hrel).
Qed.

Lemma reachable_consistent (d : Database) : reachable d -> consistent d.
Proof.
  induction 1 as [d Hempty|d env req _ IH|d env req _ IH].
  - intros rel t Hrel. rewrite (Hempty _ _ Hrel). apply NoDup_nil_2.
  - by apply exchange_consistent.
  - by apply refresh_consistent.
Qed.

(** On a table that obeys the constraint the upsert leaves exactly the
    new row under its key. *)
Lemma rows_of_insert_on_conflict (id : string) (at_ rt : jsstring) (exp : Z)
    (t : Table) :
  unique_key t ->
  rows_of id (insert_on_conflict id at_ rt exp t) = [mkRow id at_ rt exp].
Proof.
  intros Hu.
  pose proof (rows_of_unique (insert_on_conflict id at_ rt exp t) id
                (insert_on_conflict_unique id at_ rt exp t Hu)) as Hlen.
  destruct (insert_on_conflict_stored id at_ rt exp t) as (r & Hin & Hk).
  assert (r ∈ rows_of id (insert_on_conflict id at_ rt exp t)) as Hr
    by (by apply list_elem_of_filter).
  rewrite (insert_on_conflict_values id at_ rt exp t r Hin Hk) in Hr.
  destruct (rows_of id (insert_on_conflict id at_ rt exp t)) as [|r1 [|r2 l]].
  - by apply elem_of_nil in Hr.
  - apply list_elem_of_singleton in Hr. by rewrite Hr.
  - cbn in Hlen. lia.
Qed.

(** An [UPDATE] whose key matches no row changes nothing. *)
Lemma update_tokens_no_rows (at_ rt : jsstring) (exp : Z) (id : option string)
    (t : Table) :
  select_refresh_token id t = [] -> update_tokens at_ rt exp id t = t.
Proof.
  destruct id as [k|]; [|done]. cbn. intros Hsel.
  apply fmap_nil_inv in Hsel.
  induction t as [|r t IH]; [done|].
  rewrite filter_cons in Hsel. cbn. unfold has_key at 1.
  case_decide as Hk; [done|].
  rewrite bool_decide_eq_false_2 by done. f_equal. by apply IH.
Qed.

(** ** [GET /exchange] *)

(** C5.  A request to [/exchange] without the query parameter [code] is
    answered 400 with body [{error: "Missing authorization code"}]; the
    database is left as it was and no statement is sent to it (no outgoing
    call is made at all). *)
Theorem exchange_missing_code (env : Env) (d : Database) :
  let out := exchange env d {| query_code := None |} in
  response out =
    {| status := 400; body := [("error", "Missing authorization code")] |}
  /\ final out = d
  /\ calls out = [].
Proof. done. Qed.

(** The guard [!code] also rejects an empty value, [/exchange?code=]. *)
Lemma exchange_empty_code (env : Env) (d : Database) :
  exchange env d {| query_code := Some "" |}
  = exchange env d {| query_code := None |}.
Proof. done. Qed.

(** C7.  With a code present (the guard [!code] passes: the parameter has
    a non-empty value), if the provider's code exchange carries no access
    token ([undefined] or empty) the answer is 401; the vehicle listing is
    never called, no statement is sent to the database and the database is
    unchanged. *)
Theorem exchange_no_access_token (env : Env) (d : Database)
    (req : ExchangeRequest) (code : string) (access : Access) :
  query_code req = Some code -> code <> "" ->
  exchangeCode env code = inr access ->
  truthy (accessToken access) = None ->
  let out := exchange env d req in
  response out =
    {| status := 401;
       body := [("error", "Session expired. Please log in again.")] |}
  /\ calls out = [CallExchangeCode code]
  /\ Forall (fun c => is_vehicle_listing c = false /\ is_query c = false)
       (calls out)
  /\ final out = d.
Proof.
  intros Hq Hne Hacc Htok.
  assert (truthy (query_code req) = Some code) as Hcode
    by (by apply truthy_Some).
  assert (exchange env d req =
          {| response := respond 401
               [("error", Some "Session expired. Please log in again.")];
             final := d;
             calls := [CallExchangeCode code] |}) as ->.
  { unfold_handlers. rewrite Hcode, Hacc. cbn. by rewrite Htok. }
  cbn. split_and!; try done. by repeat constructor.
Qed.

Lemma exchange_no_access_token_witness :
  let out := exchange Scenario.provider_expired Scenario.fresh Scenario.callback in
  response out =
    {| status := 401;
       body := [("error", "Session expired. Please log in again.")] |}
  /\ calls out = [CallExchangeCode "VALIDCODE"]
  /\ Forall (fun c => is_vehicle_listing c = false /\ is_query c = false)
       (calls out)
  /\ final out = Scenario.fresh.
Proof.
  apply (exchange_no_access_token Scenario.provider_expired Scenario.fresh
           Scenario.callback "VALIDCODE" (mkAccess None (Some "RT1") None));
    [reflexivity | discriminate | reflexivity | reflexivity].
Defined.

(** C8.  With a code present and a code exchange that returned an access
    token, if the provider's vehicle list is absent or empty the answer is
    400; no statement is sent to the database and the database is
    unchanged. *)
Theorem exchange_no_vehicles (env : Env) (d : Database)
    (req : ExchangeRequest) (code token : string) (access : Access)
    (vr : VehicleResponse) :
  query_code req = Some code -> code <> "" ->
  exchangeCode env code = inr access ->
  accessToken access = Some token -> token <> "" ->
  getVehicles env token = inr vr ->
  vehicles vr = None \/ vehicles vr = Some [] ->
  let out := exchange env d req in
  response out = {| status := 400; body := [("error", "No vehicles found.")] |}
  /\ calls out = [CallExchangeCode code; CallGetVehicles token]
  /\ Forall (fun c => is_query c = false) (calls out)
  /\ final out = d.
Proof.
  intros Hq Hne Hacc Ha Hane Hveh Hlist.
  assert (truthy (query_code req) = Some code) as Hcode
    by (by apply truthy_Some).
  assert (truthy (accessToken access) = Some token) as Htok
    by (by apply truthy_Some).
  assert (exchange env d req =
          {| response := respond 400 [("error", Some "No vehicles found.")];
             final := d;
             calls := [CallExchangeCode code; CallGetVehicles token] |}) as ->.
  { unfold_handlers. rewrite Hcode, Hacc. cbn. rewrite Htok, Hveh. cbn.
    by destruct Hlist as [-> | ->]. }
  cbn. split_and!; try done. by repeat constructor.
Qed.

Lemma exchange_no_vehicles_witness :
  let out :=
    exchange Scenario.provider_no_vehicles Scenario.fresh Scenario.callback in
  response out = {| status := 400; body := [("error", "No vehicles found.")] |}
  /\ calls out = [CallExchangeCode "VALIDCODE"; CallGetVehicles "AT1"]
  /\ Forall (fun c => is_query c = false) (calls out)
  /\ final out = Scenario.fresh.
Proof.
  apply (exchange_no_vehicles Scenario.provider_no_vehicles Scenario.fresh
           Scenario.callback "VALIDCODE" "AT1"
           (mkAccess (Some "AT1") (Some "RT1") None)
           (mkVehicleResponse (Some [])));
    [reflexivity | discriminate | reflexivity | reflexivity | discriminate
    | reflexivity | right; reflexivity].
Defined.

(** C2.  With a code present, a code exchange that returned an access
    token and a non-empty vehicle list (and the relation [vehicles]
    deployed), [GET /exchange] answers 200 with
    [{message: "Successfully connected vehicle", vehicleId, accessToken}],
    where [vehicleId] is the first vehicle of the list and [accessToken]
    the provider's token.  Afterwards [vehicles] holds a row for that
    vehicle, every row for it carries the provider's access and refresh
    tokens and [expires_at = Date.now() + 7200000], whatever expiration the
    provider reported; rows of other vehicles and other relations are as
    before. *)
Theorem exchange_stores_first_vehicle (env : Env) (d : Database)
    (req : ExchangeRequest) (code token : string) (access : Access)
    (vr : VehicleResponse) (vehicleId : string) (others : list string)
    (t : Table) :
  query_code req = Some code -> code <> "" ->
  exchangeCode env code = inr access ->
  accessToken access = Some token -> token <> "" ->
  getVehicles env token = inr vr ->
  vehicles vr = Some (vehicleId :: others) ->
  d !! "vehicles" = Some t ->
  let out := exchange env d req in
  response out =
    {| status := 200;
       body := [("message", "Successfully connected vehicle");
                ("vehicleId", vehicleId);
                ("accessToken", token)] |}
  /\ exists t',
       final out !! "vehicles" = Some t'
       /\ (exists r, r ∈ t' /\ vehicle_id r = vehicleId)
       /\ (forall r, r ∈ t' -> vehicle_id r = vehicleId ->
             access_token r = Some token
             /\ refresh_token r = refreshToken access
             /\ expires_at r = date_now env + 7200000)
       /\ (forall k, k <> vehicleId -> rows_of k t' = rows_of k t)
       /\ (forall rel, rel <> "vehicles" -> final out !! rel = d !! rel).
Proof.
  intros Hq Hne Hacc Ha Hane Hveh Hlist Hrel.
  assert (truthy (query_code req) = Some code) as Hcode
    by (by apply truthy_Some).
  assert (truthy (accessToken access) = Some token) as Htok
    by (by apply truthy_Some).
  cbn zeta.
  rewrite (exchange_success env d req code token access vr vehicleId others t)
    by done.
  cbn [response final exchange_done]. split; [done|].
  eexists. split; [apply lookup_insert_eq|]. split_and!.
  - apply insert_on_conflict_stored.
  - intros r Hin Hk.
    by rewrite (insert_on_conflict_values _ _ _ _ _ _ Hin Hk).
  - intros k Hk. by apply insert_on_conflict_others.
  - intros rel Hrel'. by apply lookup_insert_ne.
Qed.

Lemma exchange_stores_first_vehicle_witness :
  let out := exchange Scenario.provider Scenario.fresh Scenario.callback in
  response out =
    {| status := 200;
       body := [("message", "Successfully connected vehicle");
                ("vehicleId", "veh_123");
                ("accessToken", "AT1")] |}
  /\ exists t',
       final out !! "vehicles" = Some t'
       /\ (exists r, r ∈ t' /\ vehicle_id r = "veh_123")
       /\ (forall r, r ∈ t' -> vehicle_id r = "veh_123" ->
             access_token r = Some "AT1"
             /\ refresh_token r = Some "RT1"
             /\ expires_at r = 1000 + 7200000)
       /\ (forall k, k <> "veh_123" -> rows_of k t' = rows_of k [])
       /\ (forall rel, rel <> "vehicles" ->
             final out !! rel = Scenario.fresh !! rel).
Proof.
  apply (exchange_stores_first_vehicle Scenario.provider Scenario.fresh
           Scenario.callback "VALIDCODE" "AT1"
           (mkAccess (Some "AT1") (Some "RT1") (Some 5000))
           (mkVehicleResponse (Some ["veh_123"; "veh_456"]))
           "veh_123" ["veh_456"] []);
    [reflexivity | discriminate | reflexivity | reflexivity | discriminate
    | reflexivity | reflexivity | reflexivity].
Defined.

(** C9.  Whenever [GET /exchange] answers 200, the [vehicleId] of the body
    is the key of a row of [vehicles] after the call, and the
    [accessToken] of the body is the [access_token] of every row stored
    under that key. *)
Theorem exchange_response_matches_store (env : Env) (d : Database)
    (req : ExchangeRequest) :
  let out := exchange env d req in
  status (response out) = 200 ->
  exists vehicleId token t',
    field "vehicleId" (body (response out)) = Some vehicleId
    /\ field "accessToken" (body (response out)) = Some token
    /\ final out !! "vehicles" = Some t'
    /\ (exists r, r ∈ t' /\ vehicle_id r = vehicleId)
    /\ (forall r, r ∈ t' -> vehicle_id r = vehicleId ->
          access_token r = Some token).
Proof.
  cbn zeta. intros Hok.
  destruct (exchange_inv env d req)
    as [(code & token & access & vr & v & others & t & _ & _ & _ & _ & _
         & Hrel & Hrun)|(Hbad & _)]; [|done].
  rewrite Hrun. cbn [response final body exchange_done].
  exists v, token. eexists. split_and!.
  - done.
  - done.
  - apply lookup_insert_eq.
  - apply insert_on_conflict_stored.
  - intros r Hin Hk.
    by rewrite (insert_on_conflict_values _ _ _ _ _ _ Hin Hk).
Qed.

Lemma exchange_response_matches_store_witness :
  let out := exchange Scenario.provider Scenario.fresh Scenario.callback in
  exists vehicleId token t',
    field "vehicleId" (body (response out)) = Some vehicleId
    /\ field "accessToken" (body (response out)) = Some token
    /\ final out !! "vehicles" = Some t'
    /\ (exists r, r ∈ t' /\ vehicle_id r = vehicleId)
    /\ (forall r, r ∈ t' -> vehicle_id r = vehicleId ->
          access_token r = Some token).
Proof.
  apply (exchange_response_matches_store Scenario.provider Scenario.fresh
           Scenario.callback).
  reflexivity.
Defined.

(** C4.  In every reachable state each relation holds at most one row per
    [vehicle_id]; and when two consecutive [GET /exchange] calls both
    connect the same vehicle, [vehicles] afterwards holds exactly one row
    for it, carrying the access token, the refresh token and the expiry of
    the second call. *)
Theorem exchange_twice_one_record (d : Database) :
  reachable d ->
  (forall rel t id, d !! rel = Some t -> (length (rows_of id t) <= 1)%nat)
  /\ forall env1 req1 env2 req2 v,
       let o1 := exchange env1 d req1 in
       let o2 := exchange env2 (final o1) req2 in
       field "vehicleId" (body (response o1)) = Some v ->
       field "vehicleId" (body (response o2)) = Some v ->
       exists code access token t,
         query_code req2 = Some code
         /\ exchangeCode env2 code = inr access
         /\ accessToken access = Some token
         /\ final o2 !! "vehicles" = Some t
         /\ rows_of v t =
              [ {| vehicle_id := v;
                   access_token := Some token;
                   refresh_token := refreshToken access;
                   expires_at := date_now env2 + 7200000 |} ].
Proof.
  intros Hreach. pose proof (reachable_consistent d Hreach) as Hd. split.
  - intros rel t id Hrel. apply rows_of_unique. exact (Hd _ _ Hrel).
  - intros env1 req1 env2 req2 v. cbn zeta. intros Hv1 Hv2.
    pose proof (exchange_consistent env1 d req1 Hd) as Hd1.
    destruct (exchange_inv env2 (final (exchange env1 d req1)) req2)
      as [(code & token & access & vr & v2 & others & t1 & Hcode & Hacc
           & Htok & _ & _ & Hrel & Hrun)|(_ & Hnone & _)];
      [|congruence].
    rewrite Hrun in Hv2 |- *. cbn in Hv2. injection Hv2 as ->.
    apply truthy_Some in Hcode as [Hcode _].
    apply truthy_Some in Htok as [Htok _].
    exists code, access, token. eexists. split_and!; try done.
    + cbn [final exchange_done]. apply lookup_insert_eq.
    + apply rows_of_insert_on_conflict. exact (Hd1 _ _ Hrel).
Qed.

Lemma exchange_twice_one_record_witness :
  (forall rel t id, Scenario.fresh !! rel = Some t ->
     (length (rows_of id t) <= 1)%nat)
  /\ exists code access token t,
       query_code Scenario.callback = Some code
       /\ exchangeCode Scenario.provider_later code = inr access
       /\ accessToken access = Some token
       /\ final (exchange Scenario.provider_later
                   (final (exchange Scenario.provider Scenario.fresh
                             Scenario.callback))
                   Scenario.callback) !! "vehicles" = Some t
       /\ rows_of "veh_123" t =
            [ {| vehicle_id := "veh_123";
                 access_token := Some token;
                 refresh_token := refreshToken access;
                 expires_at := 5000 + 7200000 |} ].
Proof.
  assert (reachable Scenario.fresh) as Hreach.
  { apply reach_init. intros rel t Hrel. unfold Scenario.fresh in Hrel.
    apply lookup_singleton_Some in Hrel as [_ <-]. reflexivity. }
  destruct (exchange_twice_one_record Scenario.fresh Hreach) as [Hone Htwice].
  split; [exact Hone|].
  apply (Htwice Scenario.provider Scenario.callback
           Scenario.provider_later Scenario.callback "veh_123");
    reflexivity.
Defined.

(** ** [POST /refresh-token] *)

(** C10.  [POST /refresh-token] never answers 400 (its answers are 200,
    404 and 500); whatever value the body carries under [vehicleId], the
    first thing the handler does is the lookup query with that value as its
    parameter; and when [vehicleId] is missing the lookup is all it does,
    and the answer is 404 or 500. *)
Theorem refresh_never_validates (env : Env) (d : Database) :
  (forall req,
      let s := status (response (refresh env d req)) in
      s <> 400 /\ (s = 200 \/ s = 404 \/ s = 500))
  /\ (forall v, exists rest,
        calls (refresh env d {| req_body := Some v |})
        = CallQuery (QSelect "vehicle" (prepareValue v)) :: rest)
  /\ (let out := refresh env d {| req_body := Some JUndefined |} in
      calls out = [CallQuery (QSelect "vehicle" None)]
      /\ final out = d
      /\ (status (response out) = 404 \/ status (response out) = 500)).
Proof.
  split_and!.
  - intros req. cbn zeta.
    destruct (refresh_inv env d req)
      as [(v & tv & stored & more & access & t & _ & _ & _ & _ & _ & ->)
         |[(v & tv & _ & _ & _ & ->)|(-> & _)]]; cbn; split; auto; lia.
  - intros v. unfold_handlers. cbn.
    destruct (d !! "vehicle") as [tv|]; cbn; [|by eexists].
    destruct (select_refresh_token (prepareValue v) tv) as [|stored more];
      cbn; [by eexists|].
    destruct (exchangeRefreshToken env stored) as [e|access];
      cbn; [by eexists|].
    destruct (_ !! "vehicles"); cbn; by eexists.
  - unfold_handlers. cbn [req_body prepareValue].
    destruct (d !! "vehicle") as [tv|] eqn:Hlook.
    + unfold_handlers. rewrite Hlook, (insert_id d "vehicle" tv Hlook).
      cbn. auto.
    + unfold_handlers. rewrite Hlook. cbn. auto.
Qed.

(** The lookup of [POST /refresh-token] reads relation [vehicle]; the
    upsert of [GET /exchange] and the update of [POST /refresh-token] write
    relation [vehicles].  The lemmas below state what follows in general;
    the theorems after them evaluate the handlers on small deployments. *)

(** What [/refresh-token] answers does not depend on anything [/exchange]
    has stored. *)
Lemma refresh_ignores_exchange (env env' : Env) (d : Database)
    (req : ExchangeRequest) (req' : RefreshRequest) :
  response (refresh env' (final (exchange env d req)) req')
  = response (refresh env' d req').
Proof.
  destruct (exchange_inv env d req)
    as [(code & token & access & vr & v & others & t & _ & _ & _ & _ & _
         & Hrel & ->)|(_ & _ & ->)]; [|done].
  cbn [final exchange_done].
  set (t' := insert_on_conflict _ _ _ _ _).
  unfold_handlers. destruct (req_body req') as [v'|]; [|done].
  cbn. rewrite lookup_insert_ne by done.
  destruct (d !! "vehicle") as [tv|]; [|done].
  destruct (select_refresh_token (prepareValue v') tv) as [|stored more];
    [done|].
  cbn. destruct (exchangeRefreshToken env' stored) as [e|acc]; [done|].
  cbn. rewrite (lookup_insert_ne d) by done.
  rewrite (lookup_insert_ne (<["vehicles":=t']> d)) by done.
  by rewrite lookup_insert_eq, Hrel.
Qed.

(** When the relation [vehicle] does not exist the lookup raises and the
    answer is 500, whatever [vehicles] holds. *)
Lemma refresh_undefined_relation (env : Env) (d : Database) (v : JsValue) :
  d !! "vehicle" = None ->
  refresh env d {| req_body := Some v |}
  = {| response :=
         {| status := 500;
            body := [("error", "Failed to refresh token");
                     ("details", message (UndefinedRelation "vehicle"))] |};
       final := d;
       calls := [CallQuery (QSelect "vehicle" (prepareValue v))] |}.
Proof. intros Hlook. unfold_handlers. cbn. by rewrite Hlook. Qed.

(** When the relation [vehicle] exists and holds no row for the key, the
    answer is 404 and nothing else happens. *)
Lemma refresh_lookup_empty (env : Env) (d : Database) (v : JsValue)
    (tv : Table) :
  d !! "vehicle" = Some tv ->
  select_refresh_token (prepareValue v) tv = [] ->
  refresh env d {| req_body := Some v |}
  = {| response :=
         {| status := 404; body := [("error", "Vehicle not found")] |};
       final := d;
       calls := [CallQuery (QSelect "vehicle" (prepareValue v))] |}.
Proof.
  intros Hlook Hsel. unfold_handlers. cbn. rewrite Hlook, Hsel. cbn.
  by rewrite (insert_id d "vehicle" tv Hlook).
Qed.

(** A vehicle without a row in [vehicles] never causes a change of the
    database, whichever way the request ends. *)
Lemma refresh_no_record_no_update (env : Env) (d : Database) (v : JsValue)
    (t : Table) :
  d !! "vehicles" = Some t ->
  select_refresh_token (prepareValue v) t = [] ->
  final (refresh env d {| req_body := Some v |}) = d.
Proof.
  intros Hrel Hnone.
  destruct (refresh_inv env d {| req_body := Some v |})
    as [(v1 & tv & stored & more & access & t1 & Hb & _ & _ & _ & Hrel1 & ->)
       |[(v1 & tv & _ & _ & _ & ->)|(_ & -> & _)]]; [|done..].
  cbn in Hb. simplify_eq. cbn [final refresh_done].
  rewrite update_tokens_no_rows by done. by apply insert_id.
Qed.

(** The service never writes to [vehicle]: in a reachable state that
    relation, if it exists at all, is empty. *)
Lemma reachable_lookup_relation_empty (d : Database) :
  reachable d -> forall tv, d !! "vehicle" = Some tv -> tv = [].
Proof.
  induction 1 as [d Hempty|d env req _ IH|d env req _ IH]; intros tv.
  - apply Hempty.
  - destruct (exchange_inv env d req)
      as [(code & token & access & vr & v & others & t & _ & _ & _ & _ & _
           & _ & ->)|(_ & _ & ->)]; [|apply IH].
    cbn [final exchange_done]. rewrite lookup_insert_ne by done. apply IH.
  - destruct (refresh_inv env d req)
      as [(v & tv' & stored & more & access & t & _ & _ & _ & _ & _ & ->)
         |[(v & tv' & _ & _ & _ & ->)|(_ & -> & _)]]; [|apply IH..].
    cbn [final refresh_done]. rewrite lookup_insert_ne by done. apply IH.
Qed.

(** Hence no request to [/refresh-token] is ever answered 200, and none
    changes the database. *)
Lemma refresh_never_succeeds (env : Env) (d : Database) (req : RefreshRequest) :
  reachable d ->
  (status (response (refresh env d req)) = 404
   \/ status (response (refresh env d req)) = 500)
  /\ final (refresh env d req) = d.
Proof.
  intros Hreach.
  destruct (refresh_inv env d req)
    as [(v & tv & stored & more & access & t & _ & Hlook & Hsel & _)
       |[(v & tv & _ & _ & _ & ->)|(-> & -> & _)]]; [|auto..].
  rewrite (reachable_lookup_relation_empty d Hreach tv Hlook) in Hsel.
  by destruct (prepareValue v).
Qed.

(** C1.  On a deployment with the relation the exchange path writes,
    [GET /exchange] stores [veh_123] and answers 200; the following
    [POST /refresh-token] for [veh_123] reads relation [vehicle], which
    does not exist, and answers 500.  On a deployment that also has an
    (empty) relation [vehicle] the same request is answered 404. *)
Theorem refresh_after_exchange_misses_record :
  let o1 := exchange Scenario.provider Scenario.fresh Scenario.callback in
  let o2 :=
    refresh Scenario.provider (final o1) (Scenario.refresh_of "veh_123") in
  let o1' := exchange Scenario.provider Scenario.fresh_both Scenario.callback in
  let o2' :=
    refresh Scenario.provider (final o1') (Scenario.refresh_of "veh_123") in
  status (response o1) = 200
  /\ final o1 !! "vehicles"
     = Some [mkRow "veh_123" (Some "AT1") (Some "RT1") 7201000]
  /\ response o2 =
       {| status := 500;
          body := [("error", "Failed to refresh token");
                   ("details", message (UndefinedRelation "vehicle"))] |}
  /\ calls o2 = [CallQuery (QSelect "vehicle" (Some "veh_123"))]
  /\ status (response o1') = 200
  /\ final o1' !! "vehicles"
     = Some [mkRow "veh_123" (Some "AT1") (Some "RT1") 7201000]
  /\ response o2' =
       {| status := 404; body := [("error", "Vehicle not found")] |}
  /\ calls o2' = [CallQuery (QSelect "vehicle" (Some "veh_123"))].
Proof. vm_compute. by repeat split. Qed.

(** C3.  With [veh_123] stored in [vehicles], [POST /refresh-token] for it
    answers 500 without calling the provider, and the stored row keeps its
    tokens and expiry.  With an empty relation [vehicle] besides, the
    answer is 404, again without a provider call or an update. *)
Theorem refresh_existing_record_not_refreshed :
  let o := refresh Scenario.provider Scenario.connected
             (Scenario.refresh_of "veh_123") in
  let o' := refresh Scenario.provider
              (<["vehicle" := []]> Scenario.connected)
              (Scenario.refresh_of "veh_123") in
  response o =
    {| status := 500;
       body := [("error", "Failed to refresh token");
                ("details", message (UndefinedRelation "vehicle"))] |}
  /\ calls o = [CallQuery (QSelect "vehicle" (Some "veh_123"))]
  /\ final o !! "vehicles"
     = Some [mkRow "veh_123" (Some "AT1") (Some "RT1") 7201000]
  /\ response o' =
       {| status := 404; body := [("error", "Vehicle not found")] |}
  /\ calls o' = [CallQuery (QSelect "vehicle" (Some "veh_123"))]
  /\ final o' !! "vehicles"
     = Some [mkRow "veh_123" (Some "AT1") (Some "RT1") 7201000].
Proof. vm_compute. by repeat split. Qed.

(** C6.  On a deployment with the relation the exchange path writes and
    no record for [unknown], [POST /refresh-token] for [unknown] answers
    500 and not 404; the database is unchanged. *)
Theorem refresh_unknown_vehicle_fails :
  let o := refresh Scenario.provider Scenario.fresh
             (Scenario.refresh_of "unknown") in
  Scenario.fresh !! "vehicles" = Some []
  /\ response o =
       {| status := 500;
          body := [("error", "Failed to refresh token");
                   ("details", message (UndefinedRelation "vehicle"))] |}
  /\ final o = Scenario.fresh.
Proof. vm_compute. by repeat split. Qed.

(** ** The failure boundary *)

(** Both handlers catch everything they raise: the request always gets its
    answer from the handler, never from the error-handling middleware. *)
Lemma handlers_always_answer (env : Env) (w : World) :
  (forall req, exists r w', exchange_handler env req w = (inr r, w'))
  /\ (forall req, exists r w', refresh_handler env req w = (inr r, w')).
Proof.
  split; intros req.
  - unfold exchange_handler, try_catch.
    destruct (exchange_try env req w) as [[e|r] w']; cbn; eauto.
  - unfold refresh_handler, try_catch.
    destruct (refresh_try env req w) as [[e|r] w']; cbn; eauto.
Qed.


(** * Further properties of the handlers *)

(** ** The handlers follow their paths *)

Lemma exchange_follows_path (env : Env) (d : Database) (req : ExchangeRequest) :
  exchange_path env d req (exchange env d req).
Proof.
  destruct (truthy (query_code req)) as [code|] eqn:Hcode; cycle 1.
  { replace (exchange env d req) with
      {| response := respond 400 [("error", Some "Missing authorization code")];
         final := d; calls := [] |}
      by (unfold_handlers; by rewrite Hcode).
    by constructor. }
  destruct (exchangeCode env code) as [e|access] eqn:Hacc.
  { replace (exchange env d req) with
      {| response := exchange_failure e; final := d;
         calls := [CallExchangeCode code] |}
      by (unfold_handlers; by rewrite Hcode, Hacc).
    by constructor. }
  destruct (truthy (accessToken access)) as [token|] eqn:Htok; cycle 1.
  { replace (exchange env d req) with
      {| response :=
           respond 401 [("error", Some "Session expired. Please log in again.")];
         final := d; calls := [CallExchangeCode code] |}
      by (unfold_handlers; rewrite Hcode, Hacc; cbn; by rewrite Htok).
    by econstructor. }
  destruct (getVehicles env token) as [e|vr] eqn:Hveh.
  { replace (exchange env d req) with
      {| response := exchange_failure e; final := d;
         calls := [CallExchangeCode code; CallGetVehicles token] |}
      by (unfold_handlers; rewrite Hcode, Hacc; cbn; by rewrite Htok, Hveh).
    by econstructor. }
  assert (vehicles vr = None \/ vehicles vr = Some [] ->
          exchange_path env d req (exchange env d req)) as Hnone.
  { intros Hlist.
    replace (exchange env d req) with
      {| response := respond 400 [("error", Some "No vehicles found.")];
         final := d;
         calls := [CallExchangeCode code; CallGetVehicles token] |}
      by (unfold_handlers; rewrite Hcode, Hacc; cbn; rewrite Htok, Hveh; cbn;
          by destruct Hlist as [-> | ->]).
    by econstructor. }
  destruct (vehicles vr) as [[|vehicleId others]|] eqn:Hlist; [auto| |auto].
  destruct (d !! "vehicles") as [t|] eqn:Hrel.
  - rewrite (exchange_success env d req code token access vr vehicleId others t)
      by done.
    by econstructor.
  - replace (exchange env d req) with
      {| response := exchange_failure (UndefinedRelation "vehicles");
         final := d;
         calls := calls (exchange_done env d code token access vehicleId []) |}
      by (unfold_handlers; rewrite Hcode, Hacc; cbn; rewrite Htok, Hveh; cbn;
          rewrite Hlist; cbn; by rewrite Hrel).
    by econstructor.
Qed.

Lemma refresh_follows_path (env : Env) (d : Database) (req : RefreshRequest) :
  refresh_path env d req (refresh env d req).
Proof.
  destruct (req_body req) as [v|] eqn:Hbody; cycle 1.
  { replace (refresh env d req) with
      {| response := refresh_failure (TypeError
           "Cannot destructure property 'vehicleId' of 'req.body' as it is undefined.");
         final := d; calls := [] |}
      by (unfold_handlers; by rewrite Hbody).
    by constructor. }
  destruct (d !! "vehicle") as [tv|] eqn:Hlook; cycle 1.
  { replace (refresh env d req) with
      {| response := refresh_failure (UndefinedRelation "vehicle");
         final := d;
         calls := [CallQuery (QSelect "vehicle" (prepareValue v))] |}
      by (unfold_handlers; rewrite Hbody; cbn; by rewrite Hlook).
    by constructor. }
  pose proof (insert_id d "vehicle" tv Hlook) as Hsame.
  destruct (select_refresh_token (prepareValue v) tv) as [|stored more] eqn:Hsel.
  { replace (refresh env d req) with
      {| response := respond 404 [("error", Some "Vehicle not found")];
         final := d;
         calls := [CallQuery (QSelect "vehicle" (prepareValue v))] |}
      by (unfold_handlers; rewrite Hbody; cbn; rewrite Hlook, Hsel; cbn;
          by rewrite Hsame).
    by econstructor. }
  destruct (exchangeRefreshToken env stored) as [e|access] eqn:Hprov.
  { replace (refresh env d req) with
      {| response := refresh_failure e; final := d;
         calls := [CallQuery (QSelect "vehicle" (prepareValue v));
                   CallExchangeRefreshToken stored] |}
      by (unfold_handlers; rewrite Hbody; cbn; rewrite Hlook, Hsel; cbn;
          rewrite Hprov; cbn; by rewrite Hsame).
    by econstructor. }
  destruct (d !! "vehicles") as [t|] eqn:Hrel.
  - replace (refresh env d req) with (refresh_done env d v stored access t)
      by (unfold_handlers; rewrite Hbody; cbn; rewrite Hlook, Hsel; cbn;
          rewrite Hprov; cbn; by rewrite Hsame, Hrel).
    by econstructor.
  - replace (refresh env d req) with
      {| response := refresh_failure (UndefinedRelation "vehicles");
         final := d;
         calls := calls (refresh_done env d v stored access []) |}
      by (unfold_handlers; rewrite Hbody; cbn; rewrite Hlook, Hsel; cbn;
          rewrite Hprov; cbn; by rewrite Hsame, Hrel).
    by econstructor.
Qed.

(** ** More on the upsert *)

Lemma set_tokens_absent (id : string) (at_ rt : jsstring) (exp : Z)
    (t : Table) :
  existsb (has_key id) t = false ->
  map (fun r => if has_key id r then set_tokens at_ rt exp r else r) t = t.
Proof.
  induction t as [|r t IH]; [done|]. cbn.
  destruct (has_key id r); [done|]. cbn. intros Hrest. by rewrite IH.
Qed.

Lemma set_tokens_again (id : string) (a1 r1 a2 r2 : jsstring) (e1 e2 : Z)
    (t : Table) :
  map (fun r => if has_key id r then set_tokens a2 r2 e2 r else r)
    (map (fun r => if has_key id r then set_tokens a1 r1 e1 r else r) t)
  = map (fun r => if has_key id r then set_tokens a2 r2 e2 r else r) t.
Proof.
  rewrite map_map. apply map_ext. intros r.
  destruct (has_key id r) eqn:Hk; [|by rewrite Hk].
  unfold has_key in *. cbn. by rewrite Hk.
Qed.

(** The later of two upserts for one key decides the table. *)
Lemma insert_on_conflict_overwrite (id : string) (a1 r1 a2 r2 : jsstring)
    (e1 e2 : Z) (t : Table) :
  insert_on_conflict id a2 r2 e2 (insert_on_conflict id a1 r1 e1 t)
  = insert_on_conflict id a2 r2 e2 t.
Proof.
  assert (existsb (has_key id) (insert_on_conflict id a1 r1 e1 t) = true)
    as Hin.
  { apply existsb_has_key.
    destruct (insert_on_conflict_stored id a1 r1 e1 t) as (r & Hr & <-).
    by apply list_elem_of_fmap_2. }
  unfold insert_on_conflict at 1. rewrite Hin. unfold insert_on_conflict.
  destruct (existsb (has_key id) t) eqn:E.
  - apply set_tokens_again.
  - rewrite map_app, set_tokens_absent by done. cbn.
    unfold has_key. cbn. by rewrite bool_decide_eq_true_2.
Qed.


(** ** [GET /exchange]: failures, shape of the answer, order of calls *)

(** X1.  When the provider rejects the authorization code, [/exchange]
    answers 500 with the provider's message under [details]; the vehicle
    listing is not called, no statement is sent, the database is as it
    was. *)
Theorem exchange_code_rejected (env : Env) (d : Database)
    (req : ExchangeRequest) (code : string) (e : Exn) :
  query_code req = Some code -> code <> "" ->
  exchangeCode env code = inl e ->
  exchange env d req =
    {| response :=
         {| status := 500;
            body := [("error", "Failed to exchange token or store data");
                     ("details", message e)] |};
       final := d;
       calls := [CallExchangeCode code] |}.
Proof.
  intros Hq Hne Hrej.
  assert (truthy (query_code req) = Some code) as Hcode
    by (by apply truthy_Some).
  unfold_handlers. by rewrite Hcode, Hrej.
Qed.

Lemma exchange_code_rejected_witness :
  exchange Cases.provider_rejects Scenario.fresh Scenario.callback =
    {| response :=
         {| status := 500;
            body := [("error", "Failed to exchange token or store data");
                     ("details", "invalid_grant")] |};
       final := Scenario.fresh;
       calls := [CallExchangeCode "VALIDCODE"] |}.
Proof.
  apply (exchange_code_rejected Cases.provider_rejects Scenario.fresh
           Scenario.callback "VALIDCODE" (ProviderError "invalid_grant"));
    [reflexivity | discriminate | reflexivity].
Defined.

(** X2.  When the vehicle listing fails after a successful code exchange,
    [/exchange] answers 500 with the failure's message; nothing is stored
    although the provider has already issued tokens. *)
Theorem exchange_listing_rejected (env : Env) (d : Database)
    (req : ExchangeRequest) (code token : string) (access : Access)
    (e : Exn) :
  query_code req = Some code -> code <> "" ->
  exchangeCode env code = inr access ->
  accessToken access = Some token -> token <> "" ->
  getVehicles env token = inl e ->
  exchange env d req =
    {| response :=
         {| status := 500;
            body := [("error", "Failed to exchange token or store data");
                     ("details", message e)] |};
       final := d;
       calls := [CallExchangeCode code; CallGetVehicles token] |}.
Proof.
  intros Hq Hne Hacc Ha Hane Hrej.
  assert (truthy (query_code req) = Some code) as Hcode
    by (by apply truthy_Some).
  assert (truthy (accessToken access) = Some token) as Htok
    by (by apply truthy_Some).
  unfold_handlers. rewrite Hcode, Hacc. cbn. by rewrite Htok, Hrej.
Qed.

Lemma exchange_listing_rejected_witness :
  exchange Cases.provider_listing_fails Scenario.fresh Scenario.callback =
    {| response :=
         {| status := 500;
            body := [("error", "Failed to exchange token or store data");
                     ("details", "upstream timeout")] |};
       final := Scenario.fresh;
       calls := [CallExchangeCode "VALIDCODE"; CallGetVehicles "AT1"] |}.
Proof.
  apply (exchange_listing_rejected Cases.provider_listing_fails Scenario.fresh
           Scenario.callback "VALIDCODE" "AT1"
           (mkAccess (Some "AT1") (Some "RT1") None)
           (ProviderError "upstream timeout"));
    [reflexivity | discriminate | reflexivity | reflexivity | discriminate
    | reflexivity].
Defined.

(** X3.  When the relation [vehicles] does not exist, a request that got
    its tokens and its vehicle list is answered 500 with PostgreSQL's
    message; both provider calls and the upsert attempt have been made and
    the database is as it was. *)
Theorem exchange_store_unavailable (env : Env) (d : Database)
    (req : ExchangeRequest) (code token : string) (access : Access)
    (vr : VehicleResponse) (vehicleId : string) (others : list string) :
  query_code req = Some code -> code <> "" ->
  exchangeCode env code = inr access ->
  accessToken access = Some token -> token <> "" ->
  getVehicles env token = inr vr ->
  vehicles vr = Some (vehicleId :: others) ->
  d !! "vehicles" = None ->
  exchange env d req =
    {| response :=
         {| status := 500;
            body := [("error", "Failed to exchange token or store data");
                     ("details", message (UndefinedRelation "vehicles"))] |};
       final := d;
       calls :=
         [CallExchangeCode code; CallGetVehicles token;
          CallQuery (QInsert "vehicles" vehicleId (Some token)
                       (refreshToken access) (date_now env + 7200000))] |}.
Proof.
  intros Hq Hne Hacc Ha Hane Hveh Hlist Hrel.
  assert (truthy (query_code req) = Some code) as Hcode
    by (by apply truthy_Some).
  assert (truthy (accessToken access) = Some token) as Htok
    by (by apply truthy_Some).
  unfold_handlers. rewrite Hcode, Hacc. cbn. rewrite Htok, Hveh. cbn.
  rewrite Hlist. cbn. by rewrite Hrel.
Qed.

Lemma exchange_store_unavailable_witness :
  exchange Scenario.provider ∅ Scenario.callback =
    {| response :=
         {| status := 500;
            body := [("error", "Failed to exchange token or store data");
                     ("details", message (UndefinedRelation "vehicles"))] |};
       final := ∅;
       calls :=
         [CallExchangeCode "VALIDCODE"; CallGetVehicles "AT1";
          CallQuery (QInsert "vehicles" "veh_123" (Some "AT1")
                       (Some "RT1") (1000 + 7200000))] |}.
Proof.
  apply (exchange_store_unavailable Scenario.provider ∅ Scenario.callback
           "VALIDCODE" "AT1" (mkAccess (Some "AT1") (Some "RT1") (Some 5000))
           (mkVehicleResponse (Some ["veh_123"; "veh_456"]))
           "veh_123" ["veh_456"]);
    [reflexivity | discriminate | reflexivity | reflexivity | discriminate
    | reflexivity | reflexivity | reflexivity].
Defined.

(** X4.  [/exchange?code=] (the parameter present with an empty value) is
    answered like a request without the parameter: 400, no outgoing call,
    the database as it was. *)
Theorem exchange_blank_code (env : Env) (d : Database) :
  exchange env d {| query_code := Some "" |} =
    {| response :=
         {| status := 400;
            body := [("error", "Missing authorization code")] |};
       final := d;
       calls := [] |}.
Proof. done. Qed.

(** X5.  Whatever the request, [/exchange] answers 200, 400, 401 or 500.
    A 200 carries [message], [vehicleId] and [accessToken] and no [error];
    every other answer carries [error] and neither [vehicleId] nor
    [accessToken]; a 500 also carries [details]. *)
Theorem exchange_answer_shape (env : Env) (d : Database)
    (req : ExchangeRequest) :
  let r := response (exchange env d req) in
  (status r = 200 \/ status r = 400 \/ status r = 401 \/ status r = 500)
  /\ (status r = 200 ->
        field "message" (body r) = Some "Successfully connected vehicle"
        /\ is_Some (field "vehicleId" (body r))
        /\ is_Some (field "accessToken" (body r))
        /\ field "error" (body r) = None)
  /\ (status r <> 200 ->
        is_Some (field "error" (body r))
        /\ field "vehicleId" (body r) = None
        /\ field "accessToken" (body r) = None)
  /\ (status r = 500 -> is_Some (field "details" (body r))).
Proof.
  cbn zeta. destruct (exchange_follows_path env d req); cbn;
    split_and!; try (intros; split_and!); eauto; done.
Qed.

(** X6.  The outgoing calls of [/exchange] are always an initial part of
    the same three steps, in this order: the code exchange with the
    request's code, the vehicle listing with the access token that exchange
    returned, and one upsert into [vehicles] with that token, the refresh
    token of the same answer and the clock plus two hours.  The database
    changes only when all three were made. *)
Theorem exchange_call_order (env : Env) (d : Database)
    (req : ExchangeRequest) :
  let out := exchange env d req in
  (calls out = [] /\ final out = d)
  \/ exists code,
       query_code req = Some code
       /\ ((calls out = [CallExchangeCode code] /\ final out = d)
           \/ exists access token,
                exchangeCode env code = inr access
                /\ accessToken access = Some token
                /\ ((calls out = [CallExchangeCode code; CallGetVehicles token]
                     /\ final out = d)
                    \/ exists vehicleId,
                         calls out =
                           [CallExchangeCode code; CallGetVehicles token;
                            CallQuery
                              (QInsert "vehicles" vehicleId (Some token)
                                 (refreshToken access)
                                 (date_now env + 7200000))])).
Proof.
  cbn zeta.
  destruct (exchange_follows_path env d req)
    as [Hc|code e Hc|code access Hc Ha Ht|code token access e Hc Ha Ht
       |code token access vr Hc Ha Ht|code token access vr v others Hc Ha Ht
       |code token access vr v others t Hc Ha Ht];
    cbn [calls final exchange_done]; [by left|right..];
    apply truthy_Some in Hc as [Hc _]; exists code; (split; [done|]);
    try (by left); right;
    apply truthy_Some in Ht as [Ht _]; exists access, token;
    (split_and!; [done..|]); try (by left); right; by exists v.
Qed.


(** X8.  Repeating a request to [/exchange] with the same answers from the
    provider and the same clock changes nothing: the second run leaves the
    database of the first and gives the same answer. *)
Theorem exchange_idempotent (env : Env) (d : Database)
    (req : ExchangeRequest) :
  let once := exchange env d req in
  let twice := exchange env (final once) req in
  response twice = response once /\ final twice = final once.
Proof.
  cbn zeta.
  destruct (exchange_inv env d req)
    as [(code & token & access & vr & v & others & t & Hc & Ha & Ht & Hv & Hl
         & Hrel & ->)|(_ & _ & Hsame)]; [|by rewrite !Hsame].
  cbn [final exchange_done].
  rewrite (exchange_success env _ req code token access vr v others
             (insert_on_conflict v (Some token) (refreshToken access)
                (date_now env + two_hours) t))
    by (done || apply lookup_insert_eq).
  cbn [response final exchange_done]. split; [done|].
  by rewrite insert_on_conflict_overwrite, insert_insert_eq.
Qed.

(** X9.  Last write wins: when two requests to [/exchange] connect the
    same vehicle, the database after both is the database the second
    request alone would have left. *)
Theorem exchange_last_write_wins (env1 env2 : Env) (d : Database)
    (req1 req2 : ExchangeRequest) (v : string) :
  field "vehicleId" (body (response (exchange env1 d req1))) = Some v ->
  field "vehicleId" (body (response (exchange env2 d req2))) = Some v ->
  final (exchange env2 (final (exchange env1 d req1)) req2)
  = final (exchange env2 d req2).
Proof.
  intros H1 H2.
  destruct (exchange_inv env1 d req1)
    as [(c1 & k1 & a1 & vr1 & v1 & o1 & t & _ & _ & _ & _ & _ & Hrel & E1)
       |(_ & Hnone & _)]; [|congruence].
  destruct (exchange_inv env2 d req2)
    as [(c2 & k2 & a2 & vr2 & v2 & o2 & t2 & Hc & Ha & Ht & Hv & Hl & Hrel2
         & E2)|(_ & Hnone & _)]; [|congruence].
  rewrite E1 in H1 |- *. rewrite E2 in H2 |- *.
  change (Some v1 = Some v) in H1. change (Some v2 = Some v) in H2.
  injection H1 as ->. injection H2 as ->. rewrite Hrel in Hrel2.
  injection Hrel2 as <-. cbn [final exchange_done].
  rewrite (exchange_success env2 _ req2 c2 k2 a2 vr2 v o2
             (insert_on_conflict v (Some k1) (refreshToken a1)
                (date_now env1 + two_hours) t))
    by (done || apply lookup_insert_eq).
  cbn [final exchange_done].
  by rewrite insert_on_conflict_overwrite, insert_insert_eq.
Qed.

Lemma exchange_last_write_wins_witness :
  final (exchange Scenario.provider_later
           (final (exchange Scenario.provider Scenario.fresh Scenario.callback))
           Scenario.callback)
  = final (exchange Scenario.provider_later Scenario.fresh Scenario.callback).
Proof.
  apply (exchange_last_write_wins Scenario.provider Scenario.provider_later
           Scenario.fresh Scenario.callback Scenario.callback "veh_123");
    reflexivity.
Defined.

(** X10.  [/exchange] never stores an empty access token: if every row of
    [vehicles] has a non-empty [access_token] before the request, so has
    every row after it. *)
Theorem exchange_keeps_tokens (env : Env) (d : Database)
    (req : ExchangeRequest) (t' : Table) :
  (forall t, d !! "vehicles" = Some t -> Forall has_token t) ->
  final (exchange env d req) !! "vehicles" = Some t' ->
  Forall has_token t'.
Proof.
  intros Hd.
  destruct (exchange_inv env d req)
    as [(code & token & access & vr & v & others & t & _ & _ & Ht & _ & _
         & Hrel & ->)|(_ & _ & ->)]; [|apply Hd].
  cbn [final exchange_done]. rewrite lookup_insert_eq. intros [= <-].
  specialize (Hd t Hrel). unfold insert_on_conflict.
  assert (has_token (mkRow v (Some token) (refreshToken access)
                       (date_now env + two_hours))) as Hnew.
  { unfold has_token. cbn [access_token].
    apply truthy_Some in Ht as [_ Hne].
    exists token. apply truthy_Some. done. }
  destruct (existsb (has_key v) t).
  - apply Forall_fmap, (Forall_impl _ _ _ Hd). intros r Hr. cbn.
    destruct (has_key v r); [|done].
    unfold has_token, set_tokens. cbn [access_token].
    exists token. apply truthy_Some. apply truthy_Some in Ht as [_ Hne]. done.
  - apply Forall_app. split; [done|]. by apply Forall_singleton.
Qed.

Lemma exchange_keeps_tokens_witness :
  Forall has_token
    [mkRow "veh_123" (Some "AT9") (Some "RT9") 7205000].
Proof.
  apply (exchange_keeps_tokens Scenario.provider_later Scenario.connected
           Scenario.callback).
  - intros t Ht. unfold Scenario.connected in Ht.
    apply lookup_singleton_Some in Ht as [_ <-].
    apply Forall_singleton. exists "AT1". reflexivity.
  - reflexivity.
Defined.

(** ** The lookup and the update of [/refresh-token] *)

Lemma select_found (p : option string) (tv : Table) (stored : jsstring)
    (more : list jsstring) :
  select_refresh_token p tv = stored :: more ->
  exists k first rest,
    p = Some k /\ rows_of k tv = first :: rest
    /\ stored = refresh_token first /\ more = refresh_token <$> rest.
Proof.
  destruct p as [k|]; [|done]. unfold select_refresh_token.
  fold (rows_of k tv).
  destruct (rows_of k tv) as [|first rest] eqn:Hrows; [done|].
  cbn [map]. intros [= Hs Hm]. by exists k, first, rest.
Qed.

Lemma select_first (k : string) (tv : Table) (first : Row) (rest : Table) :
  rows_of k tv = first :: rest ->
  select_refresh_token (Some k) tv
  = refresh_token first :: (refresh_token <$> rest).
Proof.
  intros Hrows. unfold select_refresh_token. fold (rows_of k tv).
  by rewrite Hrows.
Qed.

Lemma update_tokens_values (at_ rt : jsstring) (exp : Z) (k : string)
    (t : Table) (r : Row) :
  r ∈ update_tokens at_ rt exp (Some k) t -> vehicle_id r = k ->
  r = mkRow k at_ rt exp.
Proof.
  cbn. intros Hin Hk. apply list_elem_of_fmap in Hin as (r0 & -> & _).
  unfold has_key in *. case_bool_decide as Hk0; [|done].
  unfold set_tokens. by rewrite Hk0.
Qed.

Lemma update_tokens_others (at_ rt : jsstring) (exp : Z) (p : option string)
    (t : Table) (k : string) :
  p <> Some k -> rows_of k (update_tokens at_ rt exp p t) = rows_of k t.
Proof.
  destruct p as [k0|]; [|done]. intros Hne. cbn. unfold rows_of.
  induction t as [|r t IH]; [done|]. cbn [map].
  rewrite !filter_cons, IH. unfold has_key.
  case_bool_decide as Hk; [|done].
  cbn [set_tokens vehicle_id]. rewrite Hk.
  by rewrite !decide_False by congruence.
Qed.

Lemma update_tokens_keys (at_ rt : jsstring) (exp : Z) (p : option string)
    (t : Table) :
  vehicle_id <$> update_tokens at_ rt exp p t = vehicle_id <$> t.
Proof. destruct p; [apply keys_set_tokens|done]. Qed.

Lemma refresh_success (env : Env) (d : Database) (v : JsValue) (k : string)
    (tv : Table) (first : Row) (rest : Table) (access : Access) (t : Table) :
  prepareValue v = Some k ->
  d !! "vehicle" = Some tv ->
  rows_of k tv = first :: rest ->
  exchangeRefreshToken env (refresh_token first) = inr access ->
  d !! "vehicles" = Some t ->
  refresh env d {| req_body := Some v |}
  = refresh_done env d v (refresh_token first) access t.
Proof.
  intros Hp Hlook Hrows Hprov Hrel.
  pose proof (select_first k tv first rest Hrows) as Hsel.
  unfold_handlers. cbn [req_body]. rewrite Hp. cbn [store].
  rewrite Hlook, Hsel. cbn. rewrite Hprov. cbn.
  rewrite (insert_id d "vehicle" tv Hlook), Hrel.
  unfold refresh_done. by rewrite Hp.
Qed.

(** X11.  What [/refresh-token] does when both relation names are
    deployed and [vehicle] holds a row for the id: the refresh token of the
    first such row goes to the provider; then every row of [vehicles]
    under the id gets the provider's access token, its refresh token and
    the clock plus two hours; rows of other vehicles, the keys of
    [vehicles] and the relation [vehicle] are as before; the answer is 200
    with [message] and the provider's [accessToken]. *)
Theorem refresh_rotates (env : Env) (d : Database) (v : JsValue) (k : string)
    (tv : Table) (first : Row) (rest : Table) (access : Access) (t : Table) :
  prepareValue v = Some k ->
  d !! "vehicle" = Some tv ->
  rows_of k tv = first :: rest ->
  exchangeRefreshToken env (refresh_token first) = inr access ->
  d !! "vehicles" = Some t ->
  let out := refresh env d {| req_body := Some v |} in
  response out =
    {| status := 200;
       body := json [("message", Some "Token refreshed successfully");
                     ("accessToken", accessToken access)] |}
  /\ calls out =
       [CallQuery (QSelect "vehicle" (Some k));
        CallExchangeRefreshToken (refresh_token first);
        CallQuery (QUpdate "vehicles" (accessToken access)
                     (refreshToken access) (date_now env + 7200000)
                     (Some k))]
  /\ final out !! "vehicle" = Some tv
  /\ exists t',
       final out !! "vehicles" = Some t'
       /\ vehicle_id <$> t' = vehicle_id <$> t
       /\ (forall r, r ∈ t' -> vehicle_id r = k ->
             access_token r = accessToken access
             /\ refresh_token r = refreshToken access
             /\ expires_at r = date_now env + 7200000)
       /\ (forall k', k' <> k -> rows_of k' t' = rows_of k' t).
Proof.
  intros Hp Hlook Hrows Hprov Hrel. cbn zeta.
  rewrite (refresh_success env d v k tv first rest access t) by done.
  cbn [response final calls refresh_done]. rewrite Hp. split_and!; try done.
  - by rewrite lookup_insert_ne.
  - eexists. split; [apply lookup_insert_eq|]. split_and!.
    + apply update_tokens_keys.
    + intros r Hin Hk. by rewrite (update_tokens_values _ _ _ _ _ _ Hin Hk).
    + intros k' Hne. apply update_tokens_others. congruence.
Qed.

Lemma refresh_rotates_witness :
  let out := refresh Scenario.provider Cases.mirrored
               (Scenario.refresh_of "veh_123") in
  response out =
    {| status := 200;
       body := json [("message", Some "Token refreshed successfully");
                     ("accessToken", Some "AT2")] |}
  /\ calls out =
       [CallQuery (QSelect "vehicle" (Some "veh_123"));
        CallExchangeRefreshToken (Some "RT0");
        CallQuery (QUpdate "vehicles" (Some "AT2") (Some "RT2")
                     (1000 + 7200000) (Some "veh_123"))]
  /\ final out !! "vehicle"
     = Some [mkRow "veh_123" (Some "AT0") (Some "RT0") 500]
  /\ exists t',
       final out !! "vehicles" = Some t'
       /\ vehicle_id <$> t'
          = vehicle_id <$> [mkRow "veh_123" (Some "AT1") (Some "RT1") 7201000]
       /\ (forall r, r ∈ t' -> vehicle_id r = "veh_123" ->
             access_token r = Some "AT2"
             /\ refresh_token r = Some "RT2"
             /\ expires_at r = 1000 + 7200000)
       /\ (forall k', k' <> "veh_123" ->
             rows_of k' t'
             = rows_of k' [mkRow "veh_123" (Some "AT1") (Some "RT1") 7201000]).
Proof.
  apply (refresh_rotates Scenario.provider Cases.mirrored (JString "veh_123")
           "veh_123" [mkRow "veh_123" (Some "AT0") (Some "RT0") 500]
           (mkRow "veh_123" (Some "AT0") (Some "RT0") 500) []
           (mkAccess (Some "AT2") (Some "RT2") None)
           [mkRow "veh_123" (Some "AT1") (Some "RT1") 7201000]);
    reflexivity.
Defined.

(** X12.  [/refresh-token] does not check the provider's answer: when it
    carries no access token the answer is still 200, its body has
    [message] only, and the rows of the vehicle in [vehicles] are left
    with an empty [access_token]. *)
Theorem refresh_blank_answer (env : Env) (d : Database) (v : JsValue)
    (k : string) (tv : Table) (first : Row) (rest : Table) (access : Access)
    (t : Table) :
  prepareValue v = Some k ->
  d !! "vehicle" = Some tv ->
  rows_of k tv = first :: rest ->
  exchangeRefreshToken env (refresh_token first) = inr access ->
  accessToken access = None ->
  d !! "vehicles" = Some t ->
  let out := refresh env d {| req_body := Some v |} in
  response out =
    {| status := 200; body := [("message", "Token refreshed successfully")] |}
  /\ exists t',
       final out !! "vehicles" = Some t'
       /\ forall r, r ∈ t' -> vehicle_id r = k -> access_token r = None.
Proof.
  intros Hp Hlook Hrows Hprov Hblank Hrel. cbn zeta.
  rewrite (refresh_success env d v k tv first rest access t) by done.
  cbn [response final refresh_done]. rewrite Hp, Hblank. split; [done|].
  eexists. split; [apply lookup_insert_eq|].
  intros r Hin Hk. by rewrite (update_tokens_values _ _ _ _ _ _ Hin Hk).
Qed.

Lemma refresh_blank_answer_witness :
  let out := refresh Cases.provider_blank_refresh Cases.mirrored
               (Scenario.refresh_of "veh_123") in
  response out =
    {| status := 200; body := [("message", "Token refreshed successfully")] |}
  /\ exists t',
       final out !! "vehicles" = Some t'
       /\ forall r, r ∈ t' -> vehicle_id r = "veh_123" ->
            access_token r = None.
Proof.
  apply (refresh_blank_answer Cases.provider_blank_refresh Cases.mirrored
           (JString "veh_123") "veh_123"
           [mkRow "veh_123" (Some "AT0") (Some "RT0") 500]
           (mkRow "veh_123" (Some "AT0") (Some "RT0") 500) []
           (mkAccess None None None)
           [mkRow "veh_123" (Some "AT1") (Some "RT1") 7201000]);
    reflexivity.
Defined.

(** X13.  When the provider rejects the stored refresh token,
    [/refresh-token] answers 500 with the provider's message under
    [details]; no update is sent and the database is as it was. *)
Theorem refresh_provider_rejected (env : Env) (d : Database) (v : JsValue)
    (k : string) (tv : Table) (first : Row) (rest : Table) (e : Exn) :
  prepareValue v = Some k ->
  d !! "vehicle" = Some tv ->
  rows_of k tv = first :: rest ->
  exchangeRefreshToken env (refresh_token first) = inl e ->
  refresh env d {| req_body := Some v |} =
    {| response :=
         {| status := 500;
            body := [("error", "Failed to refresh token");
                     ("details", message e)] |};
       final := d;
       calls := [CallQuery (QSelect "vehicle" (Some k));
                 CallExchangeRefreshToken (refresh_token first)] |}.
Proof.
  intros Hp Hlook Hrows Hprov.
  pose proof (select_first k tv first rest Hrows) as Hsel.
  unfold_handlers. cbn [req_body]. rewrite Hp. cbn [store].
  rewrite Hlook, Hsel. cbn. rewrite Hprov. cbn.
  by rewrite (insert_id d "vehicle" tv Hlook).
Qed.

Lemma refresh_provider_rejected_witness :
  refresh Scenario.provider_later Cases.mirrored
    (Scenario.refresh_of "veh_123") =
    {| response :=
         {| status := 500;
            body := [("error", "Failed to refresh token");
                     ("details", "invalid_grant")] |};
       final := Cases.mirrored;
       calls := [CallQuery (QSelect "vehicle" (Some "veh_123"));
                 CallExchangeRefreshToken (Some "RT0")] |}.
Proof.
  apply (refresh_provider_rejected Scenario.provider_later Cases.mirrored
           (JString "veh_123") "veh_123"
           [mkRow "veh_123" (Some "AT0") (Some "RT0") 500]
           (mkRow "veh_123" (Some "AT0") (Some "RT0") 500) []
           (ProviderError "invalid_grant"));
    reflexivity.
Defined.

(** X14.  A request to [/refresh-token] whose body is [undefined] is
    answered 500 by the handler's own [catch] block; no statement is sent,
    the provider is not called, the database is as it was. *)
Theorem refresh_without_body (env : Env) (d : Database) :
  let out := refresh env d {| req_body := None |} in
  status (response out) = 500
  /\ field "error" (body (response out)) = Some "Failed to refresh token"
  /\ is_Some (field "details" (body (response out)))
  /\ calls out = []
  /\ final out = d.
Proof. cbn. split_and!; eauto. Qed.

(** X15.  Shape of the answers of [/refresh-token]: a 200 carries
    [message] and no [error]; every other answer carries [error] and no
    [accessToken]; a 500 also carries [details], a 404 does not. *)
Theorem refresh_answer_shape (env : Env) (d : Database)
    (req : RefreshRequest) :
  let r := response (refresh env d req) in
  (status r = 200 ->
     field "message" (body r) = Some "Token refreshed successfully"
     /\ field "error" (body r) = None)
  /\ (status r <> 200 ->
        is_Some (field "error" (body r))
        /\ field "accessToken" (body r) = None)
  /\ (status r = 500 -> is_Some (field "details" (body r)))
  /\ (status r = 404 -> body r = [("error", "Vehicle not found")]).
Proof.
  cbn zeta. destruct (refresh_follows_path env d req);
    cbn [response refresh_done refresh_failure respond status body json];
    split_and!; try (intros; split_and!); try done; eauto.
  all: destruct (accessToken access); done.
Qed.

(** X16.  The outgoing calls of [/refresh-token] are an initial part of
    three steps in this order: the lookup in [vehicle]; the refresh
    exchange, made only when the lookup found a row and with the refresh
    token of the first row found; the update of [vehicles], made only when
    the provider answered.  The database can change only when all three
    were made. *)
Theorem refresh_call_order (env : Env) (d : Database)
    (req : RefreshRequest) :
  let out := refresh env d req in
  (req_body req = None /\ calls out = [] /\ final out = d)
  \/ exists v,
       req_body req = Some v
       /\ ((calls out = [CallQuery (QSelect "vehicle" (prepareValue v))]
            /\ final out = d)
           \/ exists k tv first rest,
                prepareValue v = Some k
                /\ d !! "vehicle" = Some tv
                /\ rows_of k tv = first :: rest
                /\ ((calls out =
                       [CallQuery (QSelect "vehicle" (Some k));
                        CallExchangeRefreshToken (refresh_token first)]
                     /\ final out = d)
                    \/ exists access,
                         exchangeRefreshToken env (refresh_token first)
                         = inr access
                         /\ calls out =
                              [CallQuery (QSelect "vehicle" (Some k));
                               CallExchangeRefreshToken (refresh_token first);
                               CallQuery
                                 (QUpdate "vehicles" (accessToken access)
                                    (refreshToken access)
                                    (date_now env + 7200000) (Some k))])).
Proof.
  cbn zeta.
  destruct (refresh_follows_path env d req)
    as [msg Hb|v Hb Hl|v tv Hb Hl Hs|v tv stored more e Hb Hl Hs Hp
       |v tv stored more access Hb Hl Hs Hp Hr
       |v tv stored more access t Hb Hl Hs Hp Hr];
    cbn [calls final refresh_done]; [by left|right; exists v..];
    (split; [done|]); try (by left); right;
    apply select_found in Hs as (k & first & rest & Hk & Hrows & -> & _);
    rewrite Hk; exists k, tv, first, rest; (split_and!; [done..|]);
    try (by left); right; by exists access.
Qed.


(** ** Several requests in a row *)



(** ** Shutdown *)

(** X19.  On SIGINT the process always exits with code 0, whether or not
    closing the database connection succeeds: the exit is the last thing
    done and the only exit; before it, the closing message is printed
    exactly when [db.end()] succeeded and the error exactly when it
    failed. *)
Theorem sigint_always_exits (ended : Exn + unit) :
  exists before,
    on_sigint ended = before ++ [ProcessExit 0]
    /\ Forall (fun eff => forall code, eff <> ProcessExit code) before
    /\ match ended with
       | inr _ => before = [ConsoleLog "Database connection closed"]
       | inl err => before = [ConsoleError err]
       end.
Proof.
  destruct ended as [err|[]]; eexists; (split; [reflexivity|]);
    split; try done; by repeat constructor.
Qed.

(** ** What the handlers never read *)

(** X20.  [/exchange] never reads a stored row: its answer and its
    outgoing calls are the same on any two databases that agree on whether
    the relation [vehicles] exists. *)
Theorem exchange_reads_nothing (env : Env) (d1 d2 : Database)
    (req : ExchangeRequest) :
  (is_Some (d1 !! "vehicles") <-> is_Some (d2 !! "vehicles")) ->
  response (exchange env d1 req) = response (exchange env d2 req)
  /\ calls (exchange env d1 req) = calls (exchange env d2 req).
Proof.
  intros Hsame. unfold_handlers.
  destruct (truthy (query_code req)) as [code|]; [|done].
  destruct (exchangeCode env code) as [e|access]; [done|]. cbn.
  destruct (truthy (accessToken access)) as [token|]; [|done].
  destruct (getVehicles env token) as [e|vr]; [done|]. cbn.
  destruct (vehicles vr) as [[|v others]|]; [done| |done]. cbn.
  destruct (d1 !! "vehicles") as [t1|] eqn:H1,
           (d2 !! "vehicles") as [t2|] eqn:H2; cbn; try done.
  - destruct Hsame as [Hsame _]. by destruct Hsame as [? [=]].
  - destruct Hsame as [_ Hsame]. by destruct Hsame as [? [=]].
Qed.

Lemma exchange_reads_nothing_witness :
  response (exchange Scenario.provider Scenario.fresh Scenario.callback)
  = response (exchange Scenario.provider Scenario.connected Scenario.callback)
  /\ calls (exchange Scenario.provider Scenario.fresh Scenario.callback)
     = calls (exchange Scenario.provider Scenario.connected Scenario.callback).
Proof.
  apply (exchange_reads_nothing Scenario.provider Scenario.fresh
           Scenario.connected Scenario.callback).
  split; intros _; eexists; reflexivity.
Defined.

(** X21.  [/refresh-token] never reads a row of [vehicles]: its answer and
    its outgoing calls are the same on any two databases that hold the same
    relation [vehicle] and agree on whether [vehicles] exists. *)
Theorem refresh_reads_lookup_only (env : Env) (d1 d2 : Database)
    (req : RefreshRequest) :
  d1 !! "vehicle" = d2 !! "vehicle" ->
  (is_Some (d1 !! "vehicles") <-> is_Some (d2 !! "vehicles")) ->
  response (refresh env d1 req) = response (refresh env d2 req)
  /\ calls (refresh env d1 req) = calls (refresh env d2 req).
Proof.
  intros Hlook Hsame. unfold_handlers.
  destruct (req_body req) as [v|]; [|done]. cbn. rewrite Hlook.
  destruct (d2 !! "vehicle") as [tv|]; [|done].
  destruct (select_refresh_token (prepareValue v) tv) as [|stored more];
    [done|].
  cbn. destruct (exchangeRefreshToken env stored) as [e|access]; [done|].
  cbn. rewrite !lookup_insert_ne by done.
  destruct (d1 !! "vehicles") as [t1|] eqn:H1,
           (d2 !! "vehicles") as [t2|] eqn:H2; cbn; try done.
  - destruct Hsame as [Hsame _]. by destruct Hsame as [? [=]].
  - destruct Hsame as [_ Hsame]. by destruct Hsame as [? [=]].
Qed.

Lemma refresh_reads_lookup_only_witness :
  response (refresh Scenario.provider Cases.mirrored
              (Scenario.refresh_of "veh_123"))
  = response (refresh Scenario.provider
                (<["vehicles" := []]> Cases.mirrored)
                (Scenario.refresh_of "veh_123"))
  /\ calls (refresh Scenario.provider Cases.mirrored
              (Scenario.refresh_of "veh_123"))
     = calls (refresh Scenario.provider
                (<["vehicles" := []]> Cases.mirrored)
                (Scenario.refresh_of "veh_123")).
Proof.
  apply (refresh_reads_lookup_only Scenario.provider Cases.mirrored
           (<["vehicles" := []]> Cases.mirrored)
           (Scenario.refresh_of "veh_123")).
  - reflexivity.
  - split; intros _; eexists; reflexivity.
Defined.

(** X22.  On a service whose relations started empty, no request to
    [/refresh-token] is ever answered 200, whatever requests were handled
    before it: each of its answers is 404 or 500. *)
Theorem serve_never_refreshes (rs : list Request) (d : Database) :
  reachable d ->
  Forall (fun ra : Request * Response =>
            is_exchange ra.1 = false ->
            status ra.2 = 404 \/ status ra.2 = 500)
    (zip rs (serve rs d).1).
Proof.
  revert d. induction rs as [|r rs IH]; intros d Hreach; [by constructor|].
  cbn [serve].
  assert (reachable (final (handle r d))) as Hnext
    by (destruct r; cbn [handle]; by constructor).
  specialize (IH _ Hnext).
  destruct (serve rs (final (handle r d))) as [answers d'].
  cbn [fst zip zip_with] in *. constructor; [|done].
  destruct r as [env req|env req]; cbn; [done|]. intros _.
  by destruct (refresh_never_succeeds env d req Hreach).
Qed.

Lemma serve_never_refreshes_witness :
  Forall (fun ra : Request * Response =>
            is_exchange ra.1 = false ->
            status ra.2 = 404 \/ status ra.2 = 500)
    (zip [GetExchange Scenario.provider Scenario.callback;
          PostRefreshToken Scenario.provider (Scenario.refresh_of "veh_123")]
       (serve
          [GetExchange Scenario.provider Scenario.callback;
           PostRefreshToken Scenario.provider (Scenario.refresh_of "veh_123")]
          Scenario.fresh_both).1).
Proof.
  apply (serve_never_refreshes
           [GetExchange Scenario.provider Scenario.callback;
            PostRefreshToken Scenario.provider (Scenario.refresh_of "veh_123")]
           Scenario.fresh_both).
  apply reach_init. intros rel t Hrel.
  unfold Scenario.fresh_both, Scenario.fresh in Hrel.
  apply lookup_insert_Some in Hrel as [[_ <-]|[_ Hrel]]; [reflexivity|].
  apply lookup_singleton_Some in Hrel as [_ <-]. reflexivity.
Defined.
